(** * Send to reMarkable: a shallow embedding of the worker and its credential
      lifecycle manager

    The development follows the TypeScript sources:
    - [src/auth-do.ts]      the [AuthDO] Durable Object (credential lifecycle),
    - [src/upload-utils.ts] [uploadFile],
    - [src/workflow.ts]     [RemarkableUploadWorkflow.run],
    - the worker entry file  the Hono routes and the [email] handler.

    Asynchronous methods become computations in a state-and-exception monad
    [M S A]: they thread the object they belong to ([S]) and the outside
    [World] (clock, network, identifier source, log), and either return a
    value or throw a [JsError].  State changes made before a throw persist,
    as they do in JavaScript.

    Modelling conventions, used throughout:
    - calls against one Durable Object are serialised (spec section 5): a method
      runs to completion before the next one starts;
    - Durable Object storage operations do not fail; [fetch] may fail in
      transport, which makes the awaited promise reject;
    - [console.log] lines are left out, [console.error] lines are kept in the
      trace as reports;
    - time passes only at awaits: each awaited platform operation consumes one
      entry of [ticks]. *)

From Stdlib Require Import ZArith String Ascii List Lia.
From stdpp Require Import base gmap strings list pretty.

Open Scope string_scope.
Open Scope list_scope.

(** ** JavaScript values and errors *)

Inductive JsError : Type :=
| Error (message : string)
| TypeError (message : string)
| ReferenceError (message : string)
| SyntaxError (message : string)
| DOMException (name message : string).

(** [error.message] *)
Definition message_of (e : JsError) : string :=
  match e with
  | Error m | TypeError m | ReferenceError m | SyntaxError m => m
  | DOMException _ m => m
  end.

Inductive Result (A : Type) : Type :=
| Ok (a : A)
| Throw (e : JsError).
Arguments Ok {A} a.
Arguments Throw {A} e.

(** Truthiness of a [string] and of a [string | null | undefined]. *)
Definition truthy_str (s : string) : bool :=
  match s with
  | EmptyString => false
  | String _ _ => true
  end.

Definition truthy (o : option string) : bool :=
  match o with
  | Some s => truthy_str s
  | None => false
  end.

(** The one-character string holding a double quote. *)
Definition dquote : string := String (Ascii.ascii_of_nat 34) EmptyString.

(** [s.split(sep)] for a one-character separator. *)
Fixpoint split (sep : ascii) (s : string) : list string :=
  match s with
  | EmptyString => [EmptyString]
  | String c rest =>
      if Ascii.eqb c sep then EmptyString :: split sep rest
      else match split sep rest with
           | seg :: segs => String c seg :: segs
           | [] => [String c EmptyString]
           end
  end.

(** ** The outside world *)

Inductive ReqBody : Type :=
| NoBody
| JsonBody (fields : list (string * string))
| StreamBody (bytes : list Byte.byte).

Record Request : Type := mkRequest {
  url : string;
  method : string;
  headers : list (string * string);
  body : ReqBody
}.

(** A received response.  [text] is what [response.text()] resolves to and
    [json] what [response.json()] resolves to ([None]: the body is not JSON
    and [json()] rejects); a response is read through one of the two, and
    reading a body that has arrived neither fails nor takes time. *)
Record Response : Type := mkResponse {
  status : Z;
  text : string;
  json : option (list (string * string))
}.

Inductive FetchOutcome : Type :=
| NetFail (message : string)
| Resp (r : Response).

Inductive Event : Type :=
| EvFetch (req : Request)
| EvConsoleError (line : string).

Record World : Type := mkWorld {
  clock_ms : Z;                          (* Date.now() *)
  ticks : list N;                        (* ms elapsed at the coming awaits *)
  net : list FetchOutcome;               (* outcomes of the coming fetches *)
  uuids : list string;                   (* coming crypto.randomUUID() values *)
  r2_delete : list (option string);      (* coming bucket deletes: Some m = rejects *)
  trace : list Event                     (* network calls and reports so far *)
}.

Definition with_clock (t : Z) (tk : list N) (w : World) : World :=
  mkWorld t tk (net w) (uuids w) (r2_delete w) (trace w).
Definition with_net (n : list FetchOutcome) (w : World) : World :=
  mkWorld (clock_ms w) (ticks w) n (uuids w) (r2_delete w) (trace w).
Definition with_uuids (u : list string) (w : World) : World :=
  mkWorld (clock_ms w) (ticks w) (net w) u (r2_delete w) (trace w).
Definition with_r2_delete (d : list (option string)) (w : World) : World :=
  mkWorld (clock_ms w) (ticks w) (net w) (uuids w) d (trace w).
Definition with_trace (t : list Event) (w : World) : World :=
  mkWorld (clock_ms w) (ticks w) (net w) (uuids w) (r2_delete w) t.

(** [Math.floor(Date.now() / 1000)] *)
Definition now_seconds (w : World) : Z := (clock_ms w / 1000)%Z.

(** The network calls recorded in a trace. *)
Definition fetches (t : list Event) : list Request :=
  omap (fun e => match e with EvFetch r => Some r | _ => None end) t.

(** ** The monad of asynchronous computations *)

Definition M (S A : Type) : Type := S -> World -> Result A * S * World.

Definition ret {S A} (a : A) : M S A := fun s w => (Ok a, s, w).

Definition throw {S A} (e : JsError) : M S A := fun s w => (Throw e, s, w).

Definition bind {S A B} (c : M S A) (k : A -> M S B) : M S B :=
  fun s w =>
    match c s w with
    | (Ok a, s', w') => k a s' w'
    | (Throw e, s', w') => (Throw e, s', w')
    end.

(** [try { body } catch (error) { handler }] *)
Definition try_catch {S A} (body : M S A) (handler : JsError -> M S A) : M S A :=
  fun s w =>
    match body s w with
    | (Ok a, s', w') => (Ok a, s', w')
    | (Throw e, s', w') => handler e s' w'
    end.

Definition gets {S A} (f : S -> A) : M S A := fun s w => (Ok (f s), s, w).

(** A synchronous call of a host function, which returns or throws. *)
Definition host_call {S A} (r : Result A) : M S A := fun s w => (r, s, w).
Definition modify {S} (f : S -> S) : M S unit := fun s w => (Ok tt, f s, w).

Declare Scope js_scope.
Delimit Scope js_scope with js.
Notation "x <- c ;; k" := (bind c (fun x => k))
  (at level 100, c at next level, right associativity) : js_scope.
Notation "c ;; k" := (bind c (fun _ => k))
  (at level 100, right associativity) : js_scope.
Open Scope js_scope.

(** An await on a platform operation: [ticks] says how long it took. *)
Definition elapse (w : World) : World :=
  match ticks w with
  | [] => w
  | d :: rest => with_clock (clock_ms w + Z.of_N d) rest w
  end.

Definition await_tick {S} : M S unit := fun s w => (Ok tt, s, elapse w).

Definition Date_now {S} : M S Z := fun s w => (Ok (clock_ms w), s, w).

Definition console_error {S} (line : string) : M S unit :=
  fun s w => (Ok tt, s, with_trace (trace w ++ [EvConsoleError line]) w).

(** [await fetch(url, init)]: the call is recorded, then the next outcome of
    the network decides; with nothing left to answer the call fails in
    transport. *)
Definition sent (req : Request) (w : World) : World :=
  with_trace (trace w ++ [EvFetch req]) w.

Definition fetch {S} (req : Request) : M S Response :=
  fun s w =>
    match net w with
    | Resp r :: rest => (Ok r, s, elapse (with_net rest (sent req w)))
    | NetFail m :: rest => (Throw (TypeError m), s, elapse (with_net rest (sent req w)))
    | [] => (Throw (TypeError "fetch failed"), s, sent req w)
    end.

(** Whether the coming [fetch] is answered by a response at all. *)
Definition answered (w : World) : bool :=
  match net w with
  | Resp _ :: _ => true
  | _ => false
  end.

(** [crypto.randomUUID()] *)
Definition randomUUID {S} : M S string :=
  fun s w =>
    match uuids w with
    | u :: rest => (Ok u, s, with_uuids rest w)
    | [] => (Ok "00000000-0000-4000-8000-000000000000", s, w)
    end.

(** ** src/auth-do.ts *)

Definition ENDPOINT_DISCOVERY_URL : string :=
  "https://internal.cloud.remarkable.com/discovery/v1/endpoints".

(** The Durable Object: its durable storage and its in-memory fields.
    [live] tells whether the in-memory instance exists (the constructor has
    completed and the runtime has not evicted it since). *)
Record AuthDO : Type := mkAuthDO {
  storage : gmap string string;     (* this.ctx.storage *)
  access_token : option string;     (* private access_token: string | null *)
  sync_host : string;
  auth_host : string;
  live : bool
}.

Definition set_storage (f : gmap string string -> gmap string string) (o : AuthDO) : AuthDO :=
  mkAuthDO (f (storage o)) (access_token o) (sync_host o) (auth_host o) (live o).
Definition set_access_token (t : option string) (o : AuthDO) : AuthDO :=
  mkAuthDO (storage o) t (sync_host o) (auth_host o) (live o).
Definition set_sync_host (h : string) (o : AuthDO) : AuthDO :=
  mkAuthDO (storage o) (access_token o) h (auth_host o) (live o).
Definition set_auth_host (h : string) (o : AuthDO) : AuthDO :=
  mkAuthDO (storage o) (access_token o) (sync_host o) h (live o).
Definition set_live (b : bool) (o : AuthDO) : AuthDO :=
  mkAuthDO (storage o) (access_token o) (sync_host o) (auth_host o) b.

(** [await this.ctx.storage.get(key)], [.put(key, value)], [.deleteAll()] *)
Definition storage_get (key : string) : M AuthDO (option string) :=
  await_tick ;; gets (fun o => storage o !! key).

Definition storage_put (key value : string) : M AuthDO unit :=
  await_tick ;; modify (set_storage (insert key value)).

Definition storage_deleteAll : M AuthDO unit :=
  await_tick ;; modify (set_storage (fun _ => ∅)).

(** [data.field] of a parsed JSON object *)
Fixpoint field (name : string) (obj : list (string * string)) : option string :=
  match obj with
  | [] => None
  | (k, v) :: rest => if String.eqb k name then Some v else field name rest
  end.

(** [await response.json()] *)
Definition response_json {S} (r : Response) : M S (list (string * string)) :=
  match json r with
  | Some obj => ret obj
  | None => throw (SyntaxError "Unexpected token in JSON")
  end.

(** Template-literal rendering of a [string | undefined]. *)
Definition show_undefined (o : option string) : string :=
  match o with
  | Some s => s
  | None => "undefined"
  end.

Definition initializeApiHost : M AuthDO unit :=
  response <- fetch (mkRequest ENDPOINT_DISCOVERY_URL "GET" [] NoBody) ;;
  if negb (status response =? 200)%Z then
    throw (Error ("Failed to fetch discovery URL (response code): " +:+ pretty (status response)))
  else
    data <- response_json response ;;
    let auth_host := field "webapp" data in
    if negb (truthy auth_host) then
      throw (Error ("Failed to fetch auth host: " +:+ show_undefined auth_host))
    else
      modify (set_auth_host ("https://" +:+ show_undefined auth_host)) ;;
      let sync_host := field "notifications" data in
      if negb (truthy sync_host) then
        throw (Error ("Failed to fetch sync host: " +:+ show_undefined sync_host))
      else
        modify (set_sync_host ("https://" +:+ show_undefined sync_host)).

Section Program.

(** [payload_exp seg] stands for [JSON.parse(atob(seg)).exp], the expiry in
    seconds since the epoch read from the payload segment of a token.  It is
    [None] when [atob] or [JSON.parse] throws, or when the payload carries no
    number there (the comparison [exp > now] is then false).  [now] is a
    whole number of seconds, so a fractional expiry compares like the next
    whole number above it and is represented by it.  The host functions
    [atob] and [JSON.parse] are not part of the repository, so the
    development is parametric in this decoder. *)
Variable payload_exp : string -> option Z.

(** [btoa_json obj] stands for [btoa(JSON.stringify(obj))], host functions
    as well.  [JSON.stringify] leaves a character beyond U+00FF as it is and
    [btoa] throws an [InvalidCharacterError] for it, so the call either
    gives the encoding or throws. *)
Variable btoa_json : list (string * string) -> Result string.

(** The retry policy of the workflow engine, which is configured outside the
    repository: a failed step is run again up to [retry_limit] times. *)
Variable retry_limit : nat.

(** [JSON.parse(atob(token.split(".")[1])).exp].  A token without a second
    segment gives [atob(undefined)], which throws. *)
Definition token_exp (token : string) : option Z :=
  match split "." token !! 1%nat with
  | Some seg => payload_exp seg
  | None => None
  end.

(** The body of the [try] in [checkRegisteredStatus] and [getAccessToken]:
    true when [exp > now]; a throw inside the [try] is caught and falls
    through like an expired token. *)
Definition unexpired {S} (token : string) : M S bool :=
  match token_exp token with
  | Some exp =>
      ms <- Date_now ;;
      let now := (ms / 1000)%Z in
      ret (exp >? now)%Z
  | None => ret false
  end.

Definition checkRegisteredStatus : M AuthDO bool :=
  access_token <- storage_get "access_token" ;;
  valid <- (if truthy access_token
            then unexpired (show_undefined access_token)
            else ret false) ;;
  if valid then
    modify (set_access_token access_token) ;;
    ret true
  else
    refresh_token <- storage_get "refresh_token" ;;
    refreshed <-
      (if truthy refresh_token then
         auth_host <- gets auth_host ;;
         let url := auth_host +:+ "/token/json/2/user/new" in
         response <- fetch (mkRequest url "POST"
                             [("authorization", "Bearer " +:+ show_undefined refresh_token)]
                             NoBody) ;;
         if (status response =? 200)%Z then
           let data := text response in
           if truthy_str data then
             modify (set_access_token (Some data)) ;;
             storage_put "access_token" data ;;
             ret true
           else ret false
         else ret false
       else ret false) ;;
    if (refreshed : bool) then ret true
    else
      modify (set_access_token None) ;;
      ret false.

Inductive RegisterOutcome : Type :=
| RegisterResult (device_id : string)      (* { success: true, device_id } *)
| AuthError (error : string).              (* { success: false, error } *)

Definition register (linkCode deviceId : string) : M AuthDO RegisterOutcome :=
  storage_put "device_id" deviceId ;;
  let body := [("code", linkCode); ("deviceDesc", "mobile-android");
               ("deviceID", deviceId); ("secret", EmptyString)] in
  auth_host <- gets auth_host ;;
  let url := auth_host +:+ "/token/json/2/device/new" in
  response <- fetch (mkRequest url "POST" [("content-type", "application/json")]
                      (JsonBody body)) ;;
  if negb (status response =? 200)%Z then
    ret (AuthError ("Failed to register (response code): " +:+ pretty (status response)))
  else
    let data := text response in
    if negb (truthy_str data) then
      ret (AuthError "Failed to register (no data)")
    else
      storage_put "refresh_token" data ;;
      ok <- checkRegisteredStatus ;;
      if (ok : bool) then ret (RegisterResult deviceId)
      else ret (AuthError "Failed to register (not registered after token refresh)").

Definition getAccessToken : M AuthDO (option string) :=
  cached <- gets access_token ;;
  valid <- (if truthy cached
            then unexpired (show_undefined cached)
            else ret false) ;;
  if valid then ret cached
  else
    ok <- checkRegisteredStatus ;;
    if (ok : bool) then gets access_token
    else ret None.

Definition isRegistered : M AuthDO bool :=
  deviceId <- storage_get "device_id" ;;
  refreshToken <- storage_get "refresh_token" ;;
  ret (truthy deviceId && truthy refreshToken).

Record AuthStatus : Type := mkAuthStatus {
  registered : bool;
  status_device_id : option string;
  access_token_valid : option bool
}.

Definition getStatus : M AuthDO AuthStatus :=
  registered <- isRegistered ;;
  if negb registered then ret (mkAuthStatus false None None)
  else
    deviceId <- storage_get "device_id" ;;
    accessToken <- getAccessToken ;;
    ret (mkAuthStatus true
           (if truthy deviceId then deviceId else None)
           (Some (truthy accessToken))).

Definition destroy : M AuthDO unit :=
  storage_deleteAll ;;
  modify (set_access_token None).

(** The constructor: the field initialiser, then the body passed to
    [blockConcurrencyWhile].  When that body throws the instance is
    discarded and [live] stays false. *)
Definition construct : M AuthDO unit :=
  modify (set_access_token None) ;;
  initializeApiHost ;;
  checkRegisteredStatus ;;
  modify (set_live true).

(** A method call through a stub: the runtime constructs the instance first
    when none is in memory. *)
Definition rpc {A} (call : M AuthDO A) : M AuthDO A :=
  is_live <- gets live ;;
  (if (is_live : bool) then ret tt else construct) ;;
  call.

(** *** Reachable states of one Durable Object

    An instance starts with empty storage and no in-memory object; it then
    serves method calls through stubs, in any world, and may be evicted from
    memory between calls. *)

Inductive Call : Type :=
| CallRegister (linkCode deviceId : string)
| CallGetAccessToken
| CallIsRegistered
| CallGetStatus
| CallDestroy.

Definition run_call (c : Call) : M AuthDO unit :=
  match c with
  | CallRegister linkCode deviceId => register linkCode deviceId ;; ret tt
  | CallGetAccessToken => getAccessToken ;; ret tt
  | CallIsRegistered => isRegistered ;; ret tt
  | CallGetStatus => getStatus ;; ret tt
  | CallDestroy => destroy
  end.

Definition fresh_do : AuthDO := mkAuthDO ∅ None EmptyString EmptyString false.

Inductive reachable : AuthDO -> Prop :=
| reach_fresh : reachable fresh_do
| reach_call o w c r o' w' :
    reachable o -> rpc (run_call c) o w = (r, o', w') -> reachable o'
| reach_evict o :
    reachable o -> reachable (set_live false o).

(** ** The worker's bindings *)

Record HttpMetadata : Type := mkHttpMetadata {
  contentType : option string;
  contentDisposition : option string
}.

Record CustomMetadata : Type := mkCustomMetadata {
  originalFileName : string;
  uploadedBy : string;
  uploadedAt : Z;                 (* new Date(), as epoch milliseconds *)
  meta_authDoId : string
}.

Record R2Object : Type := mkR2Object {
  r2_body : list Byte.byte;
  uploaded : Z;
  httpMetadata : option HttpMetadata;
  customMetadata : option CustomMetadata
}.

Definition r2_size (f : R2Object) : nat := length (r2_body f).

Record WorkflowParams : Type := mkWorkflowParams {
  wp_email : option string;
  wp_fileId : string;
  wp_fileName : string;
  wp_authDoId : string
}.

Record WorkflowInstance : Type := mkWorkflowInstance {
  instance_id : string;
  instance_params : WorkflowParams
}.

Inductive InstanceStatus : Type :=
| Queued | Running | Complete | Errored.

Record Env : Type := mkEnv {
  SIGNUP_DISABLED : string;
  AUTH_DO : gmap string AuthDO;
  DOCUMENT_STORAGE : gmap string R2Object;
  MY_WORKFLOW : list WorkflowInstance
}.

Definition set_AUTH_DO (f : gmap string AuthDO -> gmap string AuthDO) (e : Env) : Env :=
  mkEnv (SIGNUP_DISABLED e) (f (AUTH_DO e)) (DOCUMENT_STORAGE e) (MY_WORKFLOW e).
Definition set_DOCUMENT_STORAGE (f : gmap string R2Object -> gmap string R2Object) (e : Env) : Env :=
  mkEnv (SIGNUP_DISABLED e) (AUTH_DO e) (f (DOCUMENT_STORAGE e)) (MY_WORKFLOW e).
Definition set_MY_WORKFLOW (f : list WorkflowInstance -> list WorkflowInstance) (e : Env) : Env :=
  mkEnv (SIGNUP_DISABLED e) (AUTH_DO e) (DOCUMENT_STORAGE e) (f (MY_WORKFLOW e)).

(** [env.AUTH_DO.get(env.AUTH_DO.idFromName(name)).method()]: the object of
    that name is created on first reference. *)
Definition stub_call {A} (name : string) (call : M AuthDO A) : M Env A :=
  fun e w =>
    let o := default fresh_do (AUTH_DO e !! name) in
    let '(r, o', w') := rpc call o w in
    (r, set_AUTH_DO (insert name o') e, w').

(** [env.DOCUMENT_STORAGE.put / get / delete] *)
Definition bucket_put (key : string) (obj : R2Object) : M Env unit :=
  await_tick ;; modify (set_DOCUMENT_STORAGE (insert key obj)).

Definition bucket_get (key : string) : M Env (option R2Object) :=
  await_tick ;; gets (fun e => DOCUMENT_STORAGE e !! key).

Definition bucket_delete (key : string) : M Env unit :=
  await_tick ;;
  fun e w =>
    match r2_delete w with
    | Some m :: rest => (Throw (Error m), e, with_r2_delete rest w)
    | None :: rest => (Ok tt, set_DOCUMENT_STORAGE (delete key) e, with_r2_delete rest w)
    | [] => (Ok tt, set_DOCUMENT_STORAGE (delete key) e, w)
    end.

(** [env.MY_WORKFLOW.create({ params })]: the engine names the instance and
    queues it; [run] executes later, on its own. *)
Definition workflow_create (params : WorkflowParams) : M Env WorkflowInstance :=
  await_tick ;;
  id <- randomUUID ;;
  let instance := mkWorkflowInstance id params in
  modify (set_MY_WORKFLOW (fun l => (l ++ [instance])%list)) ;;
  ret instance.

Definition instance_status (i : WorkflowInstance) : M Env InstanceStatus :=
  await_tick ;; ret Queued.

(** [a || b] on strings *)
Definition or_else (a : option string) (b : string) : string :=
  if truthy a then show_undefined a else b.

(** ** src/upload-utils.ts *)

Record File : Type := mkFile {
  file_name : string;
  file_type : string;
  file_content : list Byte.byte
}.

Record UploadResult : Type := mkUploadResult {
  ur_success : bool;
  ur_fileId : string;
  ur_fileName : string;
  ur_workflowId : string;
  ur_workflowStatus : InstanceStatus;
  ur_email : option string;
  ur_error : option string
}.

Definition uploadFile (file : File) (authDoId : string) (email : option string)
  : M Env UploadResult :=
  isRegistered <- stub_call authDoId isRegistered ;;
  if negb isRegistered then
    console_error ("Authentication check failed for authDoId: " +:+ authDoId) ;;
    throw (Error "Device not registered or authentication expired")
  else
    fileId <- randomUUID ;;
    now <- Date_now ;;
    bucket_put fileId
      (mkR2Object (file_content file) now
         (Some (mkHttpMetadata (Some (file_type file))
                  (Some ("attachment; filename=" +:+ dquote +:+ file_name file +:+ dquote))))
         (Some (mkCustomMetadata (file_name file) (or_else email "web-upload")
                  now authDoId))) ;;
    let workflowParams :=
      mkWorkflowParams (if truthy email then email else None)
        fileId (file_name file) authDoId in
    instance <- workflow_create workflowParams ;;
    workflowStatus <- instance_status instance ;;
    ret (mkUploadResult true fileId (file_name file) (instance_id instance)
           workflowStatus email None).

(** ** src/workflow.ts *)

Record FileInfo : Type := mkFileInfo {
  fi_email : option string;
  fi_fileId : string;
  fi_fileName : string;
  fi_fileSize : nat;
  fi_lastModified : Z;
  fi_authDoId : string
}.

Record ApiResponse : Type := mkApiResponse {
  api_uploaded : Z;                                  (* new Date() *)
  remarkableResponse : list (string * string)
}.

(** [step.do(name, callback)]: the callback is run again after a failure, up
    to [retry_limit] more times; the error of the last attempt is the error
    of the step. *)
Fixpoint attempts {A} (retries : nat) (callback : M Env A) : M Env A :=
  match retries with
  | O => callback
  | S k => try_catch callback (fun _ => attempts k callback)
  end.

Definition step_do {A} (name : string) (callback : M Env A) : M Env A :=
  attempts retry_limit callback.

(** [step.sleep(name, "24 hours")]: a durable timer. *)
Definition step_sleep (name : string) (duration_ms : Z) : M Env unit :=
  fun e w => (Ok tt, e, with_clock (clock_ms w + duration_ms) (ticks w) w).

Definition retrieve_file_info (payload : WorkflowParams) : M Env FileInfo :=
  file <- bucket_get (wp_fileId payload) ;;
  match file with
  | None => throw (Error ("File with ID " +:+ wp_fileId payload +:+ " not found"))
  | Some file =>
      ret (mkFileInfo (wp_email payload) (wp_fileId payload) (wp_fileName payload)
             (r2_size file) (uploaded file) (wp_authDoId payload))
  end.

Definition get_authentication (payload : WorkflowParams) : M Env string :=
  accessToken <- stub_call (wp_authDoId payload) getAccessToken ;;
  if negb (truthy accessToken) then
    throw (Error "No valid access token available. Device may not be registered.")
  else ret (show_undefined accessToken).

(** [response.ok] *)
Definition response_ok (r : Response) : bool :=
  ((200 <=? status r) && (status r <=? 299))%Z.

Definition upload_to_api (payload : WorkflowParams) (fileInfo : FileInfo)
    (accessToken : string) : M Env ApiResponse :=
  file <- bucket_get (wp_fileId payload) ;;
  match file with
  | None => throw (Error ("File with ID " +:+ wp_fileId payload +:+ " not found in R2"))
  | Some file =>
      let contentType :=
        or_else (match httpMetadata file with
                 | Some h => contentType h
                 | None => None
                 end) "application/octet-stream" in
      let rmMeta := [("parent", EmptyString); ("file_name", fi_fileName fileInfo)] in
      rmMetaBase64 <- host_call (btoa_json rmMeta) ;;
      response <- fetch (mkRequest "https://eu.tectonic.remarkable.com/doc/v2/files" "POST"
                           [("Authorization", "Bearer " +:+ accessToken);
                            ("Content-Type", contentType);
                            ("rM-Meta", rmMetaBase64)]
                           (StreamBody (r2_body file))) ;;
      if negb (response_ok response) then
        let errorText := text response in
        let line := "reMarkable API error (" +:+ pretty (status response) +:+ "): " +:+ errorText in
        console_error line ;;
        throw (Error line)
      else
        result <- response_json response ;;
        now <- Date_now ;;
        ret (mkApiResponse now result)
  end.

Definition cleanup (fileInfo : FileInfo) : M Env unit :=
  try_catch
    (bucket_delete (fi_fileId fileInfo))
    (fun error =>
       console_error ("Failed to delete file " +:+ fi_fileName fileInfo +:+ " from R2: "
                      +:+ message_of error) ;;
       throw error).

Definition twenty_four_hours : Z := (24 * 60 * 60 * 1000)%Z.

(** The steps of [run] up to and including the sleep; they hand [fileInfo]
    to the cleanup step. *)
Definition before_cleanup (payload : WorkflowParams) : M Env FileInfo :=
  fileInfo <- step_do "retrieve file info" (retrieve_file_info payload) ;;
  authInfo <- step_do "get authentication" (get_authentication payload) ;;
  apiResponse <- step_do "upload to reMarkable API"
                   (upload_to_api payload fileInfo authInfo) ;;
  step_sleep "wait before cleanup" twenty_four_hours ;;
  ret fileInfo.

Definition run (payload : WorkflowParams) : M Env unit :=
  fileInfo <- before_cleanup payload ;;
  step_do "cleanup and delete file" (cleanup fileInfo) ;;
  ret tt.

(** What the engine reports for an instance once [run] has settled: complete
    when the promise resolves, errored when it rejects. *)
Definition settled_status (r : Result unit) : InstanceStatus :=
  match r with
  | Ok _ => Complete
  | Throw _ => Errored
  end.

(** ** The worker entry file: routes and the email handler *)

Inductive JsonValue : Type :=
| JString (s : string)
| JBool (b : bool)
| JUndefined.

(** [c.json(obj, status)] *)
Record HttpResponse : Type := mkHttpResponse {
  http_status : Z;
  http_body : list (string * JsonValue)
}.

Definition c_json {S} (obj : list (string * JsonValue)) (code : Z) : M S HttpResponse :=
  ret (mkHttpResponse code obj).

(** [app.get('/signup-enabled')] *)
Definition signup_enabled_route : M Env HttpResponse :=
  flag <- gets SIGNUP_DISABLED ;;
  c_json [("signupEnabled", JBool (String.eqb flag "false"))] 200.

(** [await c.req.json()]: [None] when the request body is not JSON. *)
Definition req_json {S} (body : option (list (string * string)))
  : M S (list (string * string)) :=
  match body with
  | Some obj => ret obj
  | None => throw (SyntaxError "Unexpected token in JSON")
  end.

(** [app.post('/register')] *)
Definition register_route (body : option (list (string * string))) : M Env HttpResponse :=
  flag <- gets SIGNUP_DISABLED ;;
  if negb (String.eqb flag "false") then
    console_error "Signup is currently disabled" ;;
    c_json [("error", JString "Signup is currently disabled")] 403
  else
    try_catch
      (obj <- req_json body ;;
       let linkCode := field "linkCode" obj in
       if negb (truthy linkCode) then
         console_error "Registration failed: No link code provided" ;;
         c_json [("error", JString "Link code is required")] 400
       else
         deviceId <- randomUUID ;;
         authDoId <- randomUUID ;;
         result <- stub_call authDoId (register (show_undefined linkCode) deviceId) ;;
         match result with
         | RegisterResult _ =>
             c_json [("success", JBool true);
                     ("authId", JString authDoId);
                     ("message", JString "Device registered successfully. Use the authId for future API calls.")]
                    200
         | AuthError error =>
             console_error ("Registration failed: " +:+ error) ;;
             c_json [("error", JString error)] 400
         end)
      (fun error =>
         console_error ("Registration error: " +:+ message_of error) ;;
         c_json [("error", JString "Registration failed");
                 ("details", JString (message_of error))] 500).

(** The parsed message, as [postal-mime] hands it over. *)
Record Address : Type := mkAddress {
  address : option string;
  address_name : option string
}.

Record Attachment : Type := mkAttachment {
  filename : option string;
  mimeType : option string;
  content : list Byte.byte
}.

Record Email : Type := mkEmail {
  from : Address;
  to : option (list Address);
  subject : option string;
  attachments : option (list Attachment)
}.

(** Reading an identifier: a name that no enclosing scope binds throws a
    [ReferenceError]. *)
Fixpoint read_identifier {S A} (name : string) (scope : list (string * A)) : M S A :=
  match scope with
  | [] => throw (ReferenceError (name +:+ " is not defined"))
  | (x, v) :: rest => if String.eqb x name then ret v else read_identifier name rest
  end.

(** The address-valued bindings in scope where the handler reads [toAddress].
    The identifiers bound there are the parameters [message], [env], [ctx],
    the locals [parser], [rawEmail], [email], and at module level [app] and
    the imports [Hono], [AuthDO], [RemarkableUploadWorkflow], [uploadFile],
    [PostalMime]: none holds an address and none is named [toAddress]. *)
Definition address_bindings (email : Email) : list (string * Address) := [].

(** [for (const x of xs) { await body(x) }] *)
Fixpoint for_of {S A} (xs : list A) (body : A -> M S unit) : M S unit :=
  match xs with
  | [] => ret tt
  | x :: rest => body x ;; for_of rest body
  end.

(** The [email] handler.  The result is the reason given to
    [message.setReject], if the handler called it. *)
Definition email (message : Email) : M Env (option string) :=
  let email := message in
  match attachments email with
  | None | Some [] =>
      console_error "Email has no attachments" ;;
      ret (Some "Email must contain at least one attachment")
  | Some atts =>
      match to email with
      | None | Some [] =>
          console_error ("Email has no " +:+ dquote +:+ "to" +:+ dquote +:+ " address") ;;
          ret (Some "Email must have a 'to' address")
      | Some _ =>
          toAddress <- read_identifier "toAddress" (address_bindings email) ;;
          let authDoId :=
            match address toAddress with
            | Some a => split "@" a !! 0%nat
            | None => None
            end in
          if negb (truthy authDoId) then
            console_error ("Failed to extract authDoId from email " +:+ dquote +:+ "to" +:+ dquote +:+ " address") ;;
            ret (Some "Failed to extract authentication ID from email address")
          else
            for_of atts (fun attachment =>
              let file :=
                mkFile (or_else (subject email)
                          (or_else (filename attachment) "send to remarkable upload"))
                       (or_else (mimeType attachment) "application/octet-stream")
                       (content attachment) in
              uploadFile file (show_undefined authDoId) (address (from email)) ;;
              ret tt) ;;
            ret None
      end
  end.

(** *** The other routes *)

(** The object handed to [c.json] for an [AuthStatus]; the serialiser leaves
    out the fields that are [undefined]. *)
Definition status_body (s : AuthStatus) : list (string * JsonValue) :=
  [("registered", JBool (registered s))]
  ++ match status_device_id s with
     | Some d => [("device_id", JString d)]
     | None => []
     end
  ++ match access_token_valid s with
     | Some b => [("access_token_valid", JBool b)]
     | None => []
     end.

(** [app.get('/auth/:authId/status')] *)
Definition status_route (authId : string) : M Env HttpResponse :=
  try_catch
    (status <- stub_call authId getStatus ;;
     c_json (status_body status) 200)
    (fun error =>
       console_error ("Status check error: " +:+ message_of error) ;;
       c_json [("error", JString "Failed to check status");
               ("details", JString (message_of error))] 500).

(** [app.delete('/auth/:authId')] *)
Definition delete_route (authId : string) : M Env HttpResponse :=
  try_catch
    (stub_call authId destroy ;;
     c_json [("success", JBool true);
             ("message", JString "Authentication destroyed successfully")] 200)
    (fun error =>
       console_error ("Auth destruction error: " +:+ message_of error) ;;
       c_json [("error", JString "Failed to destroy authentication");
               ("details", JString (message_of error))] 500).

(** [await c.req.formData()] with its two fields, [file] and [authId]: [None]
    when the request body is not form data. *)
Definition req_formData {S} (form : option (option File * option string))
  : M S (option File * option string) :=
  match form with
  | Some fields => ret fields
  | None => throw (TypeError "Unrecognized Content-Type header value")
  end.

(** [app.post('/upload')] *)
Definition upload_route (form : option (option File * option string))
  : M Env HttpResponse :=
  try_catch
    (formData <- req_formData form ;;
     let file := fst formData in
     let authId := snd formData in
     match file with
     | None =>
         console_error "Upload failed: No file provided" ;;
         c_json [("error", JString "No file provided")] 400
     | Some file =>
         if negb (truthy authId) then
           console_error "Upload failed: No authId provided" ;;
           c_json [("error", JString "authId is required")] 400
         else
           result <- uploadFile file (show_undefined authId) None ;;
           c_json [("success", JBool (ur_success result));
                   ("error", match ur_error result with
                             | Some e => JString e
                             | None => JUndefined
                             end);
                   ("fileId", JString (ur_fileId result))] 200
     end)
    (fun error =>
       console_error ("Error processing direct file upload: " +:+ message_of error) ;;
       c_json [("error", JString "Failed to process file upload");
               ("details", JString (message_of error))] 500).

(** ** A concrete decoder and concrete states for the examples

    [jwt_payload_exp] is an instance of [payload_exp]: standard base64
    decoding followed by reading a payload of the exact form
    [{"exp":<digits>}]. *)

Definition b64_digit (c : ascii) : option N :=
  let n := N_of_ascii c in
  if ((65 <=? n) && (n <=? 90))%N then Some (n - 65)%N
  else if ((97 <=? n) && (n <=? 122))%N then Some (n - 71)%N
  else if ((48 <=? n) && (n <=? 57))%N then Some (n + 4)%N
  else if (n =? 43)%N then Some 62%N
  else if (n =? 47)%N then Some 63%N
  else None.

Definition b64_group (a b c d : ascii) (keep : nat) : option string :=
  match b64_digit a, b64_digit b, b64_digit c, b64_digit d with
  | Some x, Some y, Some z, Some t =>
      let v := (x * 262144 + y * 4096 + z * 64 + t)%N in
      let b1 := String (ascii_of_N (v / 65536)) EmptyString in
      let b2 := String (ascii_of_N ((v / 256) mod 256)) EmptyString in
      let b3 := String (ascii_of_N (v mod 256)) EmptyString in
      Some (match keep with
            | 1%nat => b1
            | 2%nat => b1 +:+ b2
            | _ => b1 +:+ b2 +:+ b3
            end)
  | _, _, _, _ => None
  end.

Fixpoint atob (s : string) : option string :=
  match s with
  | EmptyString => Some EmptyString
  | String a (String b EmptyString) => b64_group a b "A" "A" 1
  | String a (String b (String c EmptyString)) =>
      if Ascii.eqb c "=" then None else b64_group a b c "A" 2
  | String a (String b (String c (String d rest))) =>
      if Ascii.eqb d "=" then
        match rest with
        | EmptyString =>
            if Ascii.eqb c "=" then b64_group a b "A" "A" 1
            else b64_group a b c "A" 2
        | _ => None
        end
      else
        match b64_group a b c d 3, atob rest with
        | Some x, Some y => Some (x +:+ y)
        | _, _ => None
        end
  | _ => None
  end.

Fixpoint strip_prefix (p s : string) : option string :=
  match p, s with
  | EmptyString, _ => Some s
  | String a p', String b s' => if Ascii.eqb a b then strip_prefix p' s' else None
  | _, _ => None
  end.

(** Decimal digits up to a closing brace. *)
Fixpoint digits_then_brace (seen : bool) (acc : Z) (s : string) : option Z :=
  match s with
  | String c rest =>
      let n := N_of_ascii c in
      if ((48 <=? n) && (n <=? 57))%N
      then digits_then_brace true (acc * 10 + Z.of_N (n - 48))%Z rest
      else if Ascii.eqb c "}" then
        match rest with
        | EmptyString => if seen then Some acc else None
        | _ => None
        end
      else None
  | EmptyString => None
  end.

Definition jwt_payload_exp (seg : string) : option Z :=
  match atob seg with
  | Some payload =>
      match strip_prefix ("{" +:+ dquote +:+ "exp" +:+ dquote +:+ ":") payload with
      | Some rest => digits_then_brace false 0 rest
      | None => None
      end
  | None => None
  end.


(** [sample_btoa_json] is an instance of [btoa_json], for strings that hold
    text as UTF-8: [JSON.stringify] of an object whose values are strings,
    then [btoa], which takes the characters up to U+00FF -- one byte, or
    the lead byte C2 or C3 and a continuation byte -- and throws for any
    other. *)

Definition hex_digit (n : N) : string :=
  String (ascii_of_N (if (n <? 10)%N then 48 + n else 87 + n)) EmptyString.

Definition json_escape_char (c : ascii) : string :=
  let n := N_of_ascii c in
  if (n =? 34)%N then "\" +:+ dquote
  else if (n =? 92)%N then "\\"
  else if (n =? 8)%N then "\b"
  else if (n =? 9)%N then "\t"
  else if (n =? 10)%N then "\n"
  else if (n =? 12)%N then "\f"
  else if (n =? 13)%N then "\r"
  else if (n <? 32)%N then "\u00" +:+ hex_digit (n / 16) +:+ hex_digit (n mod 16)
  else String c EmptyString.

Fixpoint json_escape (s : string) : string :=
  match s with
  | EmptyString => EmptyString
  | String c rest => json_escape_char c +:+ json_escape rest
  end.

Definition json_string (s : string) : string :=
  dquote +:+ json_escape s +:+ dquote.

Fixpoint json_members (obj : list (string * string)) : string :=
  match obj with
  | [] => EmptyString
  | (k, v) :: rest =>
      json_string k +:+ ":" +:+ json_string v +:+
      match rest with
      | [] => EmptyString
      | _ => "," +:+ json_members rest
      end
  end.

Definition JSON_stringify (obj : list (string * string)) : string :=
  "{" +:+ json_members obj +:+ "}".

(** The characters of a text as numbers, when all are at most U+00FF. *)
Fixpoint latin1 (s : string) : option (list N) :=
  match s with
  | EmptyString => Some []
  | String c rest =>
      let n := N_of_ascii c in
      if (n <? 128)%N then option_map (cons n) (latin1 rest)
      else
        match rest with
        | String d rest' =>
            let m := N_of_ascii d in
            if ((128 <=? m) && (m <=? 191))%N then
              if (n =? 194)%N then option_map (cons m) (latin1 rest')
              else if (n =? 195)%N then option_map (cons (m + 64)%N) (latin1 rest')
              else None
            else None
        | EmptyString => None
        end
  end.

Definition b64_char (n : N) : string :=
  String (ascii_of_N (if (n <? 26)%N then 65 + n
                      else if (n <? 52)%N then 71 + n
                      else if (n <? 62)%N then n - 4
                      else if (n =? 62)%N then 43
                      else 47)) EmptyString.

Fixpoint b64_encode (l : list N) : string :=
  match l with
  | [] => EmptyString
  | [a] => b64_char (a / 4) +:+ b64_char ((a mod 4) * 16) +:+ "=="
  | [a; b] =>
      b64_char (a / 4) +:+ b64_char ((a mod 4) * 16 + b / 16)
      +:+ b64_char ((b mod 16) * 4) +:+ "="
  | a :: b :: c :: rest =>
      b64_char (a / 4) +:+ b64_char ((a mod 4) * 16 + b / 16)
      +:+ b64_char ((b mod 16) * 4 + c / 64) +:+ b64_char (c mod 64)
      +:+ b64_encode rest
  end.

Definition sample_btoa_json (obj : list (string * string)) : Result string :=
  match latin1 (JSON_stringify obj) with
  | Some chars => Ok (b64_encode chars)
  | None => Throw (DOMException "InvalidCharacterError" "Invalid character")
  end.

(** Two tokens: payload [{"exp":1000}] and payload [{"exp":2000000000}]. *)
Definition expired_token : string := "h.eyJleHAiOjEwMDB9.s".
Definition valid_token : string := "h.eyJleHAiOjIwMDAwMDAwMDB9.s".

(** A world at 1 700 000 000 s after the epoch, given what the network will
    answer, the identifiers to come and the outcomes of the bucket deletes. *)
Definition world_with (answers : list FetchOutcome) (ids : list string)
    (deletes : list (option string)) : World :=
  mkWorld 1700000000000 [3%N; 4%N] answers ids deletes [].

Definition discovery_answer : FetchOutcome :=
  Resp (mkResponse 200 EmptyString
          (Some [("notifications", "sync.example"); ("webapp", "auth.example");
                 ("mqttbroker", "mq.example")])).

Definition answer (code : Z) (text : string) : FetchOutcome :=
  Resp (mkResponse code text None).

(** Scenario A of the spec: link code ABC123, device dev-1, refresh token
    RT1, then an access token that expires later. *)
Definition scenario_A : World :=
  world_with [discovery_answer; answer 200 "RT1"; answer 200 valid_token] [] [].

(** The object after scenario A. *)
Definition registered_do : AuthDO :=
  mkAuthDO (<["access_token" := valid_token]>
              (<["refresh_token" := "RT1"]> (<["device_id" := "dev-1"]> ∅)))
           (Some valid_token) "https://sync.example" "https://auth.example" true.

(** A registered object with no access credential cached or persisted. *)
Definition registered_no_token : AuthDO :=
  mkAuthDO (<["refresh_token" := "RT1"]> (<["device_id" := "dev-1"]> ∅))
           None "https://sync.example" "https://auth.example" true.

Definition sample_file : File :=
  mkFile "notes.pdf" "application/pdf" [Byte.x25; Byte.x50; Byte.x44; Byte.x46].

Definition sample_env (flag : string) : Env :=
  mkEnv flag
        (<["acct-1" := registered_do]> ∅)
        (<["file-1" := mkR2Object (file_content sample_file) 1699999999000
                         (Some (mkHttpMetadata (Some "application/pdf") None)) None]> ∅)
        [].

Definition sample_payload : WorkflowParams :=
  mkWorkflowParams None "file-1" "notes.pdf" "acct-1".

Definition sample_message : Email :=
  mkEmail (mkAddress (Some "reader@example.org") None)
          (Some [mkAddress (Some "acct-1@send-to-remarkable.zegs.me") None])
          (Some "notes")
          (Some [mkAttachment (Some "notes.pdf") (Some "application/pdf")
                   (file_content sample_file)]).

(** The world after scenario A's clock, once the refresh request has been
    sent and nothing else is pending. *)
Definition after_refresh_call : World :=
  mkWorld 1700000000007 [] [] [] []
    [EvFetch (mkRequest "https://auth.example/token/json/2/user/new" "POST"
                [("authorization", "Bearer RT1")] NoBody)].

Definition upload_answer : FetchOutcome :=
  Resp (mkResponse 200 "{}" (Some [])).

Definition sample_file_info : FileInfo :=
  mkFileInfo None "file-1" "notes.pdf" 4 1699999999000 "acct-1".

(** The same file under a name with a dash, U+2013, which [btoa] does not
    take. *)
Definition dash_file_info : FileInfo :=
  mkFileInfo None "file-1" "notes – draft.pdf" 4 1699999999000 "acct-1".


(** The world of [sample_payload]'s job when it reaches the cleanup step,
    with six rejecting deletes ahead. *)
Definition after_upload : World :=
  mkWorld (1700000000007 + twenty_four_hours) [] [] []
    (repeat (Some "R2 unavailable") 6)
    [EvFetch (mkRequest "https://eu.tectonic.remarkable.com/doc/v2/files" "POST"
                [("Authorization", "Bearer " +:+ valid_token);
                 ("Content-Type", "application/pdf");
                 ("rM-Meta", "eyJwYXJlbnQiOiIiLCJmaWxlX25hbWUiOiJub3Rlcy5wZGYifQ==")]
                (StreamBody (file_content sample_file)))].

(** A registered object whose cached and persisted access credential has
    expired. *)
Definition registered_expired : AuthDO :=
  mkAuthDO (<["access_token" := expired_token]>
              (<["refresh_token" := "RT1"]> (<["device_id" := "dev-1"]> ∅)))
           (Some expired_token) "https://sync.example" "https://auth.example" true.

(** A registration in which the token endpoint answers with an opaque
    string, and the object it leaves. *)
Definition scenario_opaque : World :=
  world_with [discovery_answer; answer 200 "RT1"; answer 200 "opaque"] [] [].

Definition registered_opaque : AuthDO :=
  mkAuthDO (<["access_token" := "opaque"]>
              (<["refresh_token" := "RT1"]> (<["device_id" := "dev-1"]> ∅)))
           (Some "opaque") "https://sync.example" "https://auth.example" true.

(** An instance that was never registered, in memory. *)
Definition unregistered_do : AuthDO :=
  mkAuthDO ∅ None "https://sync.example" "https://auth.example" true.

(** ** Vocabulary of the statements *)

(** The expiry test as a function of the time read: the credential is
    present, its expiry decodes, and the expiry is strictly greater than
    [now] (in seconds). *)
Definition unexpired_at (now : Z) (token : option string) : bool :=
  truthy token &&
  match token_exp (show_undefined token) with
  | Some exp => (exp >? now)%Z
  | None => false
  end.

(** The request [checkRegisteredStatus] sends to the token endpoint. *)
Definition refresh_request (o : AuthDO) : Request :=
  mkRequest (auth_host o +:+ "/token/json/2/user/new") "POST"
    [("authorization", "Bearer " +:+ show_undefined (storage o !! "refresh_token"))]
    NoBody.

(** Coherence of the cache with the persisted record: a cached access
    credential is the persisted one, and an access credential is persisted
    only next to a refresh credential. *)
Definition coherent (o : AuthDO) : Prop :=
  (forall tok, access_token o = Some tok -> storage o !! "access_token" = Some tok) /\
  (is_Some (storage o !! "access_token") -> truthy (storage o !! "refresh_token") = true).

(** A computation keeps a property of the object, however it ends. *)
Definition preserves {A} (P : AuthDO -> Prop) (c : M AuthDO A) : Prop :=
  forall o w r o' w', c o w = (r, o', w') -> P o -> P o'.

(** The coming [n] bucket deletes all reject. *)
Fixpoint deletes_fail (n : nat) (l : list (option string)) : bool :=
  match n with
  | O => true
  | S k =>
      match l with
      | Some _ :: rest => deletes_fail k rest
      | _ => false
      end
  end.

(** The report [cleanup] writes when a delete rejects with message [m]. *)
Definition delete_report (fileInfo : FileInfo) (m : string) : Event :=
  EvConsoleError ("Failed to delete file " +:+ fi_fileName fileInfo +:+ " from R2: " +:+ m).

(** The device counts as registered with the upstream service: a non-empty
    refresh credential is persisted. *)
Definition has_refresh_credential (o : AuthDO) : Prop :=
  truthy (storage o !! "refresh_token") = true.

(** A relation between the world before and after holds of every run of a
    computation, however it ends. *)
Definition world_always {S A} (R : World -> World -> Prop) (c : M S A) : Prop :=
  forall s w r s' w', c s w = (r, s', w') -> R w w'.

(** A computation on the worker's bindings keeps a property of them, however
    it ends. *)
Definition env_keeps {A} (P : Env -> Prop) (c : M Env A) : Prop :=
  forall e w r e' w', c e w = (r, e', w') -> P e -> P e'.

(** The clock does not go back. *)
Definition later (w w' : World) : Prop := (clock_ms w <= clock_ms w')%Z.

(** The request [initializeApiHost] sends, and the one [register] sends. *)
Definition discovery_request : Request :=
  mkRequest ENDPOINT_DISCOVERY_URL "GET" [] NoBody.

Definition register_request (o : AuthDO) (linkCode deviceId : string) : Request :=
  mkRequest (auth_host o +:+ "/token/json/2/device/new") "POST"
    [("content-type", "application/json")]
    (JsonBody [("code", linkCode); ("deviceDesc", "mobile-android");
               ("deviceID", deviceId); ("secret", EmptyString)]).

(** The clock once every pending await has taken its time. *)
Definition latest (w : World) : Z :=
  (clock_ms w + Z.of_N (fold_right N.add 0%N (ticks w)))%Z.

(** The bucket and the list of submitted jobs are the given ones. *)
Definition same_staging (d : gmap string R2Object) (l : list WorkflowInstance)
    (e : Env) : Prop :=
  DOCUMENT_STORAGE e = d /\ MY_WORKFLOW e = l.

(** * Properties *)

(** ** Time and the world *)

Lemma elapse_net w : net (elapse w) = net w.
Proof. unfold elapse. destruct (ticks w); reflexivity. Qed.

Lemma elapse_trace w : trace (elapse w) = trace w.
Proof. unfold elapse. destruct (ticks w); reflexivity. Qed.

Lemma elapse_clock w : (clock_ms w <= clock_ms (elapse w))%Z.
Proof. unfold elapse. destruct (ticks w); simpl; lia. Qed.

Lemma elapse_now_seconds w : (now_seconds w <= now_seconds (elapse w))%Z.
Proof.
  unfold now_seconds. apply Z.div_le_mono; [lia | apply elapse_clock].
Qed.

Lemma elapse_r2_delete w : r2_delete (elapse w) = r2_delete w.
Proof. unfold elapse. destruct (ticks w); reflexivity. Qed.

Lemma trace_with_net l w : trace (with_net l w) = trace w.
Proof. reflexivity. Qed.

Lemma trace_sent req w : trace (sent req w) = trace w ++ [EvFetch req].
Proof. reflexivity. Qed.

Create Rewrite HintDb world.
Hint Rewrite elapse_trace elapse_net trace_with_net trace_sent : world.

(** ** Equations of the monad and of the storage operations *)

Lemma bind_run {S A B} (c : M S A) (k : A -> M S B) s w :
  bind c k s w =
  match c s w with
  | (Ok a, s', w') => k a s' w'
  | (Throw e, s', w') => (Throw e, s', w')
  end.
Proof. reflexivity. Qed.

Lemma storage_get_run key o w :
  storage_get key o w = (Ok (storage o !! key), o, elapse w).
Proof. reflexivity. Qed.

Lemma storage_put_run key v o w :
  storage_put key v o w = (Ok tt, set_storage (insert key v) o, elapse w).
Proof. reflexivity. Qed.

Lemma fetch_trace {S} req (s : S) w r s' w' :
  fetch req s w = (r, s', w') -> s' = s /\ trace w' = trace w ++ [EvFetch req].
Proof.
  unfold fetch. intros H.
  destruct (net w) as [|[m|resp] rest]; inversion H; subst;
    rewrite ?elapse_trace; auto.
Qed.

(** ** Equations of the credential methods *)

Lemma unexpired_run {S} (token : option string) (s : S) w :
  (if truthy token then unexpired (show_undefined token) else ret false) s w
  = (Ok (unexpired_at (now_seconds w) token), s, w).
Proof.
  unfold unexpired_at, unexpired.
  destruct (truthy token); [|reflexivity].
  destruct (token_exp (show_undefined token)); reflexivity.
Qed.

Lemma checkRegisteredStatus_run o w :
  checkRegisteredStatus o w =
  let w1 := elapse w in
  let stored := storage o !! "access_token" in
  if unexpired_at (now_seconds w1) stored then
    (Ok true, set_access_token stored o, w1)
  else
    let w2 := elapse w1 in
    if truthy (storage o !! "refresh_token") then
      match fetch (refresh_request o) o w2 with
      | (Ok response, _, w3) =>
          if (status response =? 200)%Z && truthy_str (text response) then
            (Ok true,
             set_storage (insert "access_token" (text response))
               (set_access_token (Some (text response)) o),
             elapse w3)
          else (Ok false, set_access_token None o, w3)
      | (Throw e, _, w3) => (Throw e, o, w3)
      end
    else (Ok false, set_access_token None o, w2).
Proof.
  unfold checkRegisteredStatus.
  rewrite bind_run, storage_get_run.
  rewrite bind_run, unexpired_run.
  cbv zeta.
  destruct (unexpired_at _ _); [reflexivity|].
  rewrite bind_run, storage_get_run.
  destruct (truthy (storage o !! "refresh_token")) eqn:Hrt.
  - unfold refresh_request, fetch, bind, gets. cbn.
    destruct (net (elapse (elapse w))) as [|[m|r] rest]; cbn; try reflexivity.
    destruct (status r =? 200)%Z; cbn; [|reflexivity].
    destruct (truthy_str (text r)); reflexivity.
  - reflexivity.
Qed.

Lemma getAccessToken_run o w :
  getAccessToken o w =
  if unexpired_at (now_seconds w) (access_token o) then (Ok (access_token o), o, w)
  else
    match checkRegisteredStatus o w with
    | (Ok true, o', w') => (Ok (access_token o'), o', w')
    | (Ok false, o', w') => (Ok None, o', w')
    | (Throw e, o', w') => (Throw e, o', w')
    end.
Proof.
  unfold getAccessToken.
  rewrite bind_run. unfold gets at 1.
  rewrite bind_run, unexpired_run.
  destruct (unexpired_at _ _); [reflexivity|].
  rewrite bind_run.
  destruct (checkRegisteredStatus o w) as [[[[]|e] o'] w']; reflexivity.
Qed.

Lemma isRegistered_run o w :
  isRegistered o w =
  (Ok (truthy (storage o !! "device_id") && truthy (storage o !! "refresh_token")),
   o, elapse (elapse w)).
Proof. reflexivity. Qed.

Lemma destroy_run o w :
  destroy o w = (Ok tt, set_access_token None (set_storage (fun _ => ∅) o), elapse w).
Proof. reflexivity. Qed.

(** ** The credential lifecycle *)

(** C10.  Whatever the state of an account instance, [destroy()] succeeds and
    leaves an instance on which [isRegistered()] returns false and
    [getAccessToken()] returns absent, without any network call and in any
    world the two calls are made in. *)
Theorem destroy_then_unregistered (o : AuthDO) (w w1 w2 : World) :
  exists o1 wd,
    destroy o w = (Ok tt, o1, wd) /\
    storage o1 = ∅ /\
    (exists w', isRegistered o1 w1 = (Ok false, o1, w')) /\
    (exists o2 w', getAccessToken o1 w2 = (Ok None, o2, w') /\
                   trace w' = trace w2).
Proof.
  rewrite destroy_run. eexists _, _. split; [reflexivity|].
  split; [reflexivity|]. split.
  - rewrite isRegistered_run. cbn. rewrite lookup_empty. cbn. eauto.
  - rewrite getAccessToken_run, checkRegisteredStatus_run. cbn.
    rewrite !lookup_empty. cbn.
    eexists _, _. split; [reflexivity|]. now rewrite !elapse_trace.
Qed.

(** Case analysis of one run of [checkRegisteredStatus] or
    [getAccessToken]: on the tests of the code and on the outcome of the
    network. *)
Ltac refresh_cases H :=
  rewrite ?getAccessToken_run in H;
  repeat match type of H with
         | context [if unexpired_at ?t ?x then _ else _] =>
             destruct (unexpired_at t x) eqn:?
         end;
  rewrite ?checkRegisteredStatus_run in H; cbv zeta in H; unfold fetch in H;
  repeat match type of H with
         | context [if ?b then _ else _] => destruct b eqn:?
         | context [match net ?w with _ => _ end] =>
             destruct (net w) as [|[?|?] ?] eqn:?
         end;
  inversion H; subst; clear H.

(** C9.  A run of the refresh algorithm that does not succeed -- the token
    endpoint answers with a non-success status or an empty body, the call
    fails in transport, or there is nothing to refresh with -- leaves the
    persisted record, and so the refresh credential, exactly as it was. *)
Theorem failed_refresh_keeps_refresh_credential o w r o' w' :
  checkRegisteredStatus o w = (r, o', w') ->
  r <> Ok true ->
  storage o' = storage o /\
  storage o' !! "refresh_token" = storage o !! "refresh_token".
Proof.
  intros H Hr.
  assert (storage o' = storage o) as E.
  { refresh_cases H; try reflexivity; congruence. }
  split; [exact E | now rewrite E].
Qed.

Lemma unexpired_at_Some now token :
  unexpired_at now token = true ->
  exists tok exp, token = Some tok /\ tok <> EmptyString /\
                  token_exp tok = Some exp /\ (now < exp)%Z.
Proof.
  unfold unexpired_at. intros H.
  apply andb_true_iff in H as [Ht He].
  destruct token as [tok|]; [|discriminate]. cbn in *.
  destruct (token_exp tok) as [exp|] eqn:Ee; [|discriminate].
  exists tok, exp. split; [reflexivity|]. split; [intros ->; discriminate|].
  split; [exact Ee|lia].
Qed.

Lemma truthy_str_nonempty s : truthy_str s = true -> s <> EmptyString.
Proof. intros H ->. discriminate. Qed.

(** C1, as the code has it.  A credential returned by [getAccessToken()] at
    time [now_seconds w] is either taken from the cache or from the persisted
    record, in which case its decoded expiry is strictly greater than the
    call time and no network call was made, or it is the non-empty body the
    token endpoint has just answered with status 200, which is returned as
    received: its expiry is neither decoded nor compared. *)
Theorem getAccessToken_unexpired_or_just_refreshed o w tok o' w' :
  getAccessToken o w = (Ok (Some tok), o', w') ->
  (exists exp, (access_token o = Some tok \/ storage o !! "access_token" = Some tok) /\
               token_exp tok = Some exp /\ (now_seconds w < exp)%Z /\
               trace w' = trace w)
  \/
  (exists resp rest, net w = Resp resp :: rest /\ status resp = 200%Z /\
                     text resp = tok /\ tok <> EmptyString /\
                     trace w' = trace w ++ [EvFetch (refresh_request o)]).
Proof.
  intros H. pose proof (elapse_now_seconds w) as Hmono.
  refresh_cases H.
  - (* the cached credential *)
    left.
    match goal with E : unexpired_at _ _ = true |- _ =>
      apply unexpired_at_Some in E as (t & exp & Et & _ & Ee & Hlt) end.
    exists exp. split; [left; congruence|].
    split; [congruence|]. split; [assumption|reflexivity].
  - (* the persisted credential *)
    left.
    match goal with E : unexpired_at _ (storage _ !! _) = true |- _ =>
      apply unexpired_at_Some in E as (t & exp & Et & _ & Ee & Hlt) end.
    cbn in *. exists exp. rewrite elapse_trace.
    split; [right; congruence|]. split; [congruence|]. split; [lia|reflexivity].
  - (* the credential just received *)
    right.
    match goal with E : _ && _ = true |- _ => apply andb_true_iff in E as [Es Et] end.
    match goal with E : net _ = _ |- _ => rewrite !elapse_net in E end.
    eexists _, _. split; [eassumption|].
    split; [lia|]. split; [reflexivity|].
    split; [now apply truthy_str_nonempty|].
    now autorewrite with world.
Qed.

(** C2, as the code has it.  Whatever the token endpoint answers, status and
    body, [getAccessToken()] returns and does not raise.  It raises exactly
    when it needs the network -- no unexpired credential cached or persisted,
    a refresh credential present -- and the call fails in transport: the
    [fetch] is not inside a [try], so its rejection propagates. *)
Theorem getAccessToken_raises_only_on_transport_failure o w r o' w' :
  getAccessToken o w = (r, o', w') ->
  (answered w = true -> exists v, r = Ok v) /\
  (forall e, r = Throw e ->
     answered w = false /\ o' = o /\
     trace w' = trace w ++ [EvFetch (refresh_request o)] /\
     exists m, e = TypeError m) /\
  (answered w = false ->
   unexpired_at (now_seconds w) (access_token o) = false ->
   unexpired_at (now_seconds (elapse w)) (storage o !! "access_token") = false ->
   truthy (storage o !! "refresh_token") = true ->
   exists e, r = Throw e).
Proof.
  intros H. unfold answered. rewrite <- (elapse_net w), <- (elapse_net (elapse w)).
  refresh_cases H;
    repeat match goal with E : net _ = _ |- _ => rewrite E; clear E end;
    (split; [|split]); intros; try discriminate; try congruence; eauto.
  all: match goal with E : Throw _ = Throw _ |- _ => injection E as <- end;
    autorewrite with world; repeat split; eauto.
Qed.

Lemma register_run linkCode deviceId o w :
  register linkCode deviceId o w =
  let o1 := set_storage (insert "device_id" deviceId) o in
  let req := mkRequest (auth_host o +:+ "/token/json/2/device/new") "POST"
               [("content-type", "application/json")]
               (JsonBody [("code", linkCode); ("deviceDesc", "mobile-android");
                          ("deviceID", deviceId); ("secret", EmptyString)]) in
  match fetch req o1 (elapse w) with
  | (Throw e, _, w1) => (Throw e, o1, w1)
  | (Ok response, _, w1) =>
      if negb (status response =? 200)%Z then
        (Ok (AuthError ("Failed to register (response code): " +:+ pretty (status response))),
         o1, w1)
      else if negb (truthy_str (text response)) then
        (Ok (AuthError "Failed to register (no data)"), o1, w1)
      else
        match checkRegisteredStatus
                (set_storage (insert "refresh_token" (text response)) o1) (elapse w1) with
        | (Ok true, o2, w2) => (Ok (RegisterResult deviceId), o2, w2)
        | (Ok false, o2, w2) =>
            (Ok (AuthError "Failed to register (not registered after token refresh)"), o2, w2)
        | (Throw e, o2, w2) => (Throw e, o2, w2)
        end
  end.
Proof.
  unfold register.
  rewrite bind_run, storage_put_run.
  rewrite bind_run. unfold gets at 1. rewrite bind_run. cbv zeta.
  unfold fetch. cbn [auth_host set_storage].
  destruct (net (elapse w)) as [|[m|r] rest]; try reflexivity.
  destruct (negb (status r =? 200)%Z); [reflexivity|].
  destruct (negb (truthy_str (text r))); [reflexivity|].
  rewrite bind_run, storage_put_run, bind_run.
  match goal with |- context [checkRegisteredStatus ?a ?b] =>
    destruct (checkRegisteredStatus a b) as [[[[]|e] o2] w2] end; reflexivity.
Qed.

(** C6.  When the registration endpoint answers with a
    non-success status or with an empty body, [register] returns an
    [AuthError] and its only effect on the persisted record is the write of
    [device_id], which is not rolled back.  The refresh credential field is
    not written: it is absent afterwards if it was absent before, and a
    refresh credential persisted by an earlier registration stays. *)
Theorem register_rejected_leaves_refresh_credential
    linkCode deviceId o w resp rest :
  net w = Resp resp :: rest ->
  status resp <> 200%Z \/ text resp = EmptyString ->
  exists error w',
    register linkCode deviceId o w
      = (Ok (AuthError error), set_storage (insert "device_id" deviceId) o, w') /\
    storage (set_storage (insert "device_id" deviceId) o) !! "refresh_token"
      = storage o !! "refresh_token" /\
    (storage o !! "refresh_token" = None ->
     storage (set_storage (insert "device_id" deviceId) o) !! "refresh_token" = None) /\
    storage (set_storage (insert "device_id" deviceId) o) !! "device_id"
      = Some deviceId.
Proof.
  intros Hnet Hbad.
  rewrite register_run. cbv zeta. unfold fetch.
  rewrite elapse_net, Hnet.
  assert (storage (set_storage (insert "device_id" deviceId) o) !! "refresh_token"
          = storage o !! "refresh_token") as Hrt.
  { cbn. now rewrite lookup_insert_ne. }
  assert (storage (set_storage (insert "device_id" deviceId) o) !! "device_id"
          = Some deviceId) as Hid.
  { cbn. now rewrite lookup_insert_eq. }
  assert (storage o !! "refresh_token" = None ->
          storage (set_storage (insert "device_id" deviceId) o) !! "refresh_token"
          = None) as Hnone.
  { intros Habs. now rewrite Hrt. }
  destruct (status resp =? 200)%Z eqn:Es; cbn [negb].
  - destruct Hbad as [Hs|Ht]; [lia|]. rewrite Ht. cbn [truthy_str negb].
    eauto 6.
  - eauto 6.
Qed.

(** ** Reachable states are coherent *)

Lemma preserves_ret {A} P (a : A) : preserves P (ret a).
Proof. intros o w r o' w' H. inversion H; subst; auto. Qed.

Lemma preserves_throw {A} P e : preserves P (@throw AuthDO A e).
Proof. intros o w r o' w' H. inversion H; subst; auto. Qed.

Lemma preserves_bind {A B} P (c : M AuthDO A) (k : A -> M AuthDO B) :
  preserves P c -> (forall a, preserves P (k a)) -> preserves P (bind c k).
Proof.
  intros Hc Hk o w r o' w' H Ho. unfold bind in H.
  destruct (c o w) as [[[a|e] o1] w1] eqn:Ec.
  - eapply Hk; eauto.
  - inversion H; subst. eapply Hc; eauto.
Qed.

Lemma preserves_gets {A} P (f : AuthDO -> A) : preserves P (gets f).
Proof. intros o w r o' w' H. inversion H; subst; auto. Qed.

Lemma preserves_modify P (f : AuthDO -> AuthDO) :
  (forall o, P o -> P (f o)) -> preserves P (modify f).
Proof. intros Hf o w r o' w' H. inversion H; subst; auto. Qed.

Lemma preserves_await_tick P : preserves P await_tick.
Proof. intros o w r o' w' H. inversion H; subst; auto. Qed.

Lemma preserves_Date_now P : preserves P Date_now.
Proof. intros o w r o' w' H. inversion H; subst; auto. Qed.

Lemma preserves_fetch P req : preserves P (fetch req).
Proof. intros o w r o' w' H Ho. apply fetch_trace in H as [-> _]. exact Ho. Qed.

Lemma preserves_storage_get P key : preserves P (storage_get key).
Proof.
  apply preserves_bind; [apply preserves_await_tick|]. intros _. apply preserves_gets.
Qed.

Lemma preserves_storage_put P key v :
  (forall o, P o -> P (set_storage (insert key v) o)) ->
  preserves P (storage_put key v).
Proof.
  intros H. apply preserves_bind; [apply preserves_await_tick|].
  intros _. now apply preserves_modify.
Qed.

Lemma coherent_fresh : coherent fresh_do.
Proof.
  split.
  - intros tok H. discriminate.
  - cbn. rewrite lookup_empty. intros [x Hx]. discriminate.
Qed.

Lemma coherent_hosts o f :
  storage (f o) = storage o -> access_token (f o) = access_token o ->
  coherent o -> coherent (f o).
Proof. intros Hs Ha [H1 H2]. split; rewrite ?Hs, ?Ha; auto. Qed.

Lemma coherent_no_cache o : coherent o -> coherent (set_access_token None o).
Proof. intros [H1 H2]. split; [intros tok H; discriminate | exact H2]. Qed.

Lemma coherent_put_device_id o v :
  coherent o -> coherent (set_storage (insert "device_id" v) o).
Proof.
  intros [H1 H2]. split; cbn; rewrite ?lookup_insert_ne by discriminate; auto.
Qed.

Lemma coherent_put_refresh_token o v :
  truthy_str v = true ->
  coherent o -> coherent (set_storage (insert "refresh_token" v) o).
Proof.
  intros Hv [H1 H2]. split; cbn.
  - intros tok H. rewrite lookup_insert_ne by discriminate. auto.
  - intros _. now rewrite lookup_insert_eq.
Qed.

Lemma checkRegisteredStatus_coherent : preserves coherent checkRegisteredStatus.
Proof.
  intros o w r o' w' H Hco. pose proof Hco as [H1 H2].
  rewrite checkRegisteredStatus_run in H. cbv zeta in H.
  destruct (unexpired_at _ _) eqn:Est.
  { inversion H; subst. split; cbn; auto. }
  destruct (truthy (storage o !! "refresh_token")) eqn:Ert.
  2:{ inversion H; subst. now apply coherent_no_cache. }
  destruct (fetch _ o _) as [[[resp|e] o1] w1] eqn:Ef.
  2:{ inversion H; subst. exact Hco. }
  destruct (_ && _) eqn:Eok.
  2:{ inversion H; subst. now apply coherent_no_cache. }
  inversion H; subst. split; cbn.
  - intros tok [= <-]. now rewrite lookup_insert_eq.
  - intros _. now rewrite lookup_insert_ne by discriminate.
Qed.

Lemma register_coherent linkCode deviceId :
  preserves coherent (register linkCode deviceId).
Proof.
  unfold register.
  apply preserves_bind.
  { apply preserves_storage_put. intros o. apply coherent_put_device_id. }
  intros _. apply preserves_bind; [apply preserves_gets|]. intros host.
  apply preserves_bind; [apply preserves_fetch|]. intros response.
  destruct (negb _); [apply preserves_ret|].
  destruct (negb (truthy_str (text response))) eqn:Et; [apply preserves_ret|].
  apply negb_false_iff in Et.
  apply preserves_bind.
  { apply preserves_storage_put. intros o. now apply coherent_put_refresh_token. }
  intros _. apply preserves_bind; [apply checkRegisteredStatus_coherent|].
  intros []; apply preserves_ret.
Qed.

Lemma getAccessToken_coherent : preserves coherent getAccessToken.
Proof.
  unfold getAccessToken.
  apply preserves_bind; [apply preserves_gets|]. intros cached.
  apply preserves_bind.
  { destruct (truthy cached); [|apply preserves_ret].
    unfold unexpired. destruct (token_exp _); [|apply preserves_ret].
    apply preserves_bind; [|intros; apply preserves_ret].
    intros o w r o' w' H. inversion H; subst; auto. }
  intros []; [apply preserves_ret|].
  apply preserves_bind; [apply checkRegisteredStatus_coherent|].
  intros []; [apply preserves_gets|apply preserves_ret].
Qed.

Lemma isRegistered_coherent : preserves coherent isRegistered.
Proof.
  unfold isRegistered.
  apply preserves_bind; [apply preserves_storage_get|]. intros ?.
  apply preserves_bind; [apply preserves_storage_get|]. intros ?.
  apply preserves_ret.
Qed.

Lemma getStatus_coherent : preserves coherent getStatus.
Proof.
  unfold getStatus.
  apply preserves_bind; [apply isRegistered_coherent|]. intros b.
  destruct (negb b); [apply preserves_ret|].
  apply preserves_bind; [apply preserves_storage_get|]. intros ?.
  apply preserves_bind; [apply getAccessToken_coherent|]. intros ?.
  apply preserves_ret.
Qed.

Lemma destroy_coherent : preserves coherent destroy.
Proof.
  intros o w r o' w' H _. rewrite destroy_run in H. inversion H; subst.
  split; cbn.
  - intros tok H'. discriminate.
  - rewrite lookup_empty. intros [x Hx]. discriminate.
Qed.

Lemma initializeApiHost_coherent : preserves coherent initializeApiHost.
Proof.
  unfold initializeApiHost.
  apply preserves_bind; [apply preserves_fetch|]. intros response.
  destruct (negb _); [apply preserves_throw|].
  apply preserves_bind.
  { unfold response_json. destruct (json response);
      [apply preserves_ret|apply preserves_throw]. }
  intros data.
  destruct (negb (truthy (field "webapp" data))); [apply preserves_throw|].
  apply preserves_bind.
  { apply preserves_modify. intros o. now apply coherent_hosts. }
  intros _.
  destruct (negb (truthy (field "notifications" data))); [apply preserves_throw|].
  apply preserves_modify. intros o. now apply coherent_hosts.
Qed.

Lemma construct_coherent : preserves coherent construct.
Proof.
  unfold construct.
  apply preserves_bind.
  { apply preserves_modify. intros o. apply coherent_no_cache. }
  intros _. apply preserves_bind; [apply initializeApiHost_coherent|].
  intros _. apply preserves_bind; [apply checkRegisteredStatus_coherent|].
  intros _. apply preserves_modify. intros o. now apply coherent_hosts.
Qed.

Lemma rpc_coherent {A} (call : M AuthDO A) :
  preserves coherent call -> preserves coherent (rpc call).
Proof.
  intros Hc. unfold rpc.
  apply preserves_bind; [apply preserves_gets|]. intros b.
  apply preserves_bind.
  { destruct b; [apply preserves_ret|apply construct_coherent]. }
  intros _. exact Hc.
Qed.

Lemma run_call_coherent c : preserves coherent (run_call c).
Proof.
  destruct c; cbn [run_call].
  - apply preserves_bind; [apply register_coherent|]. intros; apply preserves_ret.
  - apply preserves_bind; [apply getAccessToken_coherent|]. intros; apply preserves_ret.
  - apply preserves_bind; [apply isRegistered_coherent|]. intros; apply preserves_ret.
  - apply preserves_bind; [apply getStatus_coherent|]. intros; apply preserves_ret.
  - apply destroy_coherent.
Qed.

Lemma reachable_coherent o : reachable o -> coherent o.
Proof.
  induction 1 as [|o w c r o' w' Hr IH Hc|o Hr IH].
  - apply coherent_fresh.
  - eapply rpc_coherent; eauto using run_call_coherent.
  - now apply coherent_hosts.
Qed.

Lemma token_exp_nonempty tok E : token_exp tok = Some E -> truthy_str tok = true.
Proof. destruct tok; [discriminate|reflexivity]. Qed.

Lemma unexpired_at_token now tok E :
  token_exp tok = Some E ->
  unexpired_at now (Some tok) = (E >? now)%Z.
Proof.
  intros HE. unfold unexpired_at. cbn.
  now rewrite (token_exp_nonempty _ _ HE), HE.
Qed.

(** C7.  In a reachable state whose cache holds an access credential of
    expiry [E]: called at a time before [E], [getAccessToken] returns the
    cached credential and changes nothing, so it makes no network call;
    called at [E] or later it makes exactly one network call, the refresh
    request to the token endpoint, however that call ends. *)
Theorem cached_credential_network_calls o w tok E :
  reachable o ->
  access_token o = Some tok ->
  token_exp tok = Some E ->
  ((now_seconds w < E)%Z -> getAccessToken o w = (Ok (Some tok), o, w)) /\
  ((E <= now_seconds w)%Z ->
   exists r o' w',
     getAccessToken o w = (r, o', w') /\
     fetches (trace w') = fetches (trace w) ++ [refresh_request o]).
Proof.
  intros Hreach Hc HE.
  apply reachable_coherent in Hreach as [H1 H2].
  specialize (H1 _ Hc).
  rewrite getAccessToken_run, Hc, (unexpired_at_token _ _ _ HE).
  split; intros Ht.
  - replace (E >? now_seconds w)%Z with true by lia. reflexivity.
  - replace (E >? now_seconds w)%Z with false by lia.
    rewrite checkRegisteredStatus_run. cbv zeta.
    rewrite H1, (unexpired_at_token _ _ _ HE).
    pose proof (elapse_now_seconds w).
    replace (E >? now_seconds (elapse w))%Z with false by lia.
    rewrite H2 by (rewrite H1; eauto).
    assert (forall w', trace w' = trace w ++ [EvFetch (refresh_request o)] ->
                       fetches (trace w') = fetches (trace w) ++ [refresh_request o]) as Hf.
    { intros w' ->. unfold fetches. now rewrite omap_app. }
    unfold fetch. rewrite !elapse_net.
    destruct (net w) as [|[m|resp] rest].
    + eexists _, _, _. split; [reflexivity|]. apply Hf. now autorewrite with world.
    + eexists _, _, _. split; [reflexivity|]. apply Hf. now autorewrite with world.
    + destruct (_ && _).
      * eexists _, _, _. split; [reflexivity|]. apply Hf. now autorewrite with world.
      * eexists _, _, _. split; [reflexivity|]. apply Hf. now autorewrite with world.
Qed.

(** ** Only [destroy] removes the refresh credential *)

Ltac preserve_step :=
  lazymatch goal with
  | |- preserves _ (bind _ _) => apply preserves_bind; [|intros ?]
  | |- preserves _ (ret _) => apply preserves_ret
  | |- preserves _ (throw _) => apply preserves_throw
  | |- preserves _ (gets _) => apply preserves_gets
  | |- preserves _ (fetch _) => apply preserves_fetch
  | |- preserves _ (storage_get _) => apply preserves_storage_get
  | |- preserves _ (storage_put _ _) => apply preserves_storage_put; intros ? ?
  | |- preserves _ (modify _) => apply preserves_modify; intros ? ?
  | |- preserves _ Date_now => apply preserves_Date_now
  | |- preserves _ (if ?b then _ else _) => destruct b eqn:?
  | |- preserves _ (match ?x with Some _ => _ | None => _ end) => destruct x
  end.

Lemma has_refresh_set_access_token t o :
  has_refresh_credential o -> has_refresh_credential (set_access_token t o).
Proof. auto. Qed.

Lemma has_refresh_put key v o :
  key <> "refresh_token" ->
  has_refresh_credential o -> has_refresh_credential (set_storage (insert key v) o).
Proof.
  unfold has_refresh_credential. intros Hk H. cbn. now rewrite lookup_insert_ne.
Qed.

Lemma checkRegisteredStatus_keeps_refresh :
  preserves has_refresh_credential checkRegisteredStatus.
Proof.
  unfold checkRegisteredStatus, unexpired.
  repeat preserve_step;
    solve [now apply has_refresh_set_access_token | now apply has_refresh_put].
Qed.

Lemma getAccessToken_keeps_refresh :
  preserves has_refresh_credential getAccessToken.
Proof.
  unfold getAccessToken, unexpired.
  repeat preserve_step; apply checkRegisteredStatus_keeps_refresh.
Qed.

Lemma register_keeps_refresh linkCode deviceId :
  preserves has_refresh_credential (register linkCode deviceId).
Proof.
  unfold register.
  repeat preserve_step; try apply checkRegisteredStatus_keeps_refresh.
  - now apply has_refresh_put.
  - unfold has_refresh_credential. cbn. rewrite lookup_insert_eq. cbn.
    match goal with E : negb (truthy_str _) = false |- _ =>
      now apply negb_false_iff in E end.
Qed.

(** Every method but [destroy] leaves a registered device registered,
    whatever the network does. *)
Lemma only_destroy_removes_refresh_credential c :
  c <> CallDestroy -> preserves has_refresh_credential (run_call c).
Proof.
  intros Hc. destruct c; cbn [run_call]; [| | | |congruence].
  - repeat preserve_step. apply register_keeps_refresh.
  - repeat preserve_step. apply getAccessToken_keeps_refresh.
  - unfold isRegistered. repeat preserve_step.
  - unfold getStatus, isRegistered. repeat preserve_step.
    apply getAccessToken_keeps_refresh.
Qed.

(** ** The upload orchestrator *)

(** A call through a stub touches the object namespace only. *)
Lemma stub_call_frame {A} name (call : M AuthDO A) e w r e' w' :
  stub_call name call e w = (r, e', w') ->
  DOCUMENT_STORAGE e' = DOCUMENT_STORAGE e /\
  MY_WORKFLOW e' = MY_WORKFLOW e /\
  SIGNUP_DISABLED e' = SIGNUP_DISABLED e.
Proof.
  unfold stub_call. intros H.
  destruct (rpc call _ w) as [[r0 o0] w0]. inversion H; subst. now cbn.
Qed.

(** C8.  When [isRegistered()] answers false for the account,
    [uploadFile] throws the not-registered error right after that answer:
    the bucket holds what it held and no workflow instance has been
    created. *)
Theorem uploadFile_unregistered file authDoId email e w e1 w1 :
  stub_call authDoId isRegistered e w = (Ok false, e1, w1) ->
  exists w',
    uploadFile file authDoId email e w
      = (Throw (Error "Device not registered or authentication expired"), e1, w') /\
    fetches (trace w') = fetches (trace w1) /\
    DOCUMENT_STORAGE e1 = DOCUMENT_STORAGE e /\
    MY_WORKFLOW e1 = MY_WORKFLOW e.
Proof.
  intros H.
  destruct (stub_call_frame _ _ _ _ _ _ _ H) as (Hd & Hw & _).
  unfold uploadFile. rewrite bind_run, H. cbn [negb].
  rewrite bind_run. unfold console_error at 1, throw.
  eexists. split; [reflexivity|]. split; [|now split].
  cbn. unfold fetches. rewrite omap_app. cbn. now rewrite app_nil_r.
Qed.

(** ** The delayed job *)

Lemma cleanup_rejected fileInfo e w m rest :
  r2_delete w = Some m :: rest ->
  cleanup fileInfo e w =
  (Throw (Error m), e,
   with_trace (trace w ++ [delete_report fileInfo m]) (with_r2_delete rest (elapse w))).
Proof.
  intros H. unfold cleanup, try_catch, bucket_delete.
  rewrite bind_run. unfold await_tick.
  rewrite elapse_r2_delete, H. cbn. now rewrite elapse_trace.
Qed.

Lemma attempts_cleanup_rejected fileInfo e n : forall w,
  deletes_fail (S n) (r2_delete w) = true ->
  exists m msgs w',
    attempts n (cleanup fileInfo) e w = (Throw (Error m), e, w') /\
    length msgs = S n /\
    trace w' = trace w ++ map (delete_report fileInfo) msgs.
Proof.
  induction n as [|n IH]; intros w H; cbn in H.
  - destruct (r2_delete w) as [|[m|] rest] eqn:E; try discriminate.
    exists m, [m]. eexists. cbn [attempts].
    rewrite (cleanup_rejected _ _ _ _ _ E). repeat split.
  - destruct (r2_delete w) as [|[m|] rest] eqn:E; try discriminate.
    cbn [attempts]. unfold try_catch.
    rewrite (cleanup_rejected _ _ _ _ _ E).
    destruct (IH (with_trace (trace w ++ [delete_report fileInfo m])
                    (with_r2_delete rest (elapse w)))) as (m' & msgs & w' & Hrun & Hlen & Htr).
    { exact H. }
    exists m', (m :: msgs), w'. split; [exact Hrun|]. split; [cbn; lia|].
    rewrite Htr. cbn. now rewrite <- app_assoc.
Qed.

(** C3, as the code has it.  For a job that has reached the cleanup step:
    when the blob delete rejects at every attempt the engine makes, each
    rejection is reported through [console.error] and thrown again, the step
    fails, [run] rejects with the error of the delete, and the instance
    settles as errored, not complete; the staged blob is still in the
    bucket. *)
Theorem cleanup_failure_fails_the_job payload e w fileInfo e1 w1 :
  before_cleanup payload e w = (Ok fileInfo, e1, w1) ->
  deletes_fail (S retry_limit) (r2_delete w1) = true ->
  exists m msgs w2,
    run payload e w = (Throw (Error m), e1, w2) /\
    settled_status (run payload e w).1.1 = Errored /\
    length msgs = S retry_limit /\
    trace w2 = trace w1 ++ map (delete_report fileInfo) msgs.
Proof.
  intros Hb Hd.
  destruct (attempts_cleanup_rejected fileInfo e1 retry_limit w1 Hd)
    as (m & msgs & w2 & Hrun & Hlen & Htr).
  exists m, msgs, w2.
  assert (run payload e w = (Throw (Error m), e1, w2)) as E.
  { unfold run. rewrite bind_run, Hb, bind_run. unfold step_do. now rewrite Hrun. }
  rewrite E. now repeat split.
Qed.

(** Scenario D of the spec, for comparison: when the delete succeeds at the
    first attempt, [run] resolves, the instance settles as complete and the
    blob is gone. *)
Lemma cleanup_success_completes payload e w fileInfo e1 w1 :
  before_cleanup payload e w = (Ok fileInfo, e1, w1) ->
  deletes_fail 1 (r2_delete w1) = false ->
  exists w2,
    run payload e w
      = (Ok tt, set_DOCUMENT_STORAGE (delete (fi_fileId fileInfo)) e1, w2) /\
    settled_status (run payload e w).1.1 = Complete /\
    DOCUMENT_STORAGE (set_DOCUMENT_STORAGE (delete (fi_fileId fileInfo)) e1)
      !! fi_fileId fileInfo = None.
Proof.
  intros Hb Hd.
  assert (exists w2, cleanup fileInfo e1 w1
                     = (Ok tt, set_DOCUMENT_STORAGE (delete (fi_fileId fileInfo)) e1, w2))
    as [w2 Hc].
  { unfold cleanup, try_catch, bucket_delete. rewrite bind_run. unfold await_tick.
    rewrite elapse_r2_delete. cbn in Hd.
    destruct (r2_delete w1) as [|[m|] rest]; try discriminate; eauto. }
  assert (attempts retry_limit (cleanup fileInfo) e1 w1
          = (Ok tt, set_DOCUMENT_STORAGE (delete (fi_fileId fileInfo)) e1, w2)) as Ha.
  { destruct retry_limit; cbn [attempts]; [exact Hc|]. unfold try_catch. now rewrite Hc. }
  exists w2.
  assert (run payload e w
          = (Ok tt, set_DOCUMENT_STORAGE (delete (fi_fileId fileInfo)) e1, w2)) as E.
  { unfold run. rewrite bind_run, Hb, bind_run. unfold step_do. now rewrite Ha. }
  rewrite E. split; [reflexivity|]. split; [reflexivity|].
  cbn. apply lookup_delete_eq.
Qed.
(** ** The routes and the email handler *)

(** C4, as the code has it.  [POST /register] always answers.  With signup
    disabled the answer is [{error}] with status 403.  With signup enabled: a
    body that is not JSON gives status 500; a missing or empty [linkCode]
    gives [{error}] with status 400; otherwise the device is registered under
    a fresh [authId], and the answer is [{success, authId, message}] with
    status 200 when [register] succeeds, [{error}] with status 400 when it
    returns an error, and [{error, details}] with status 500 when it
    throws. *)
Theorem register_route_responses body e w :
  (SIGNUP_DISABLED e <> "false" ->
   exists w',
     register_route body e w
       = (Ok (mkHttpResponse 403 [("error", JString "Signup is currently disabled")]),
          e, w')) /\
  (SIGNUP_DISABLED e = "false" ->
   (body = None ->
    exists details w',
      register_route body e w
        = (Ok (mkHttpResponse 500 [("error", JString "Registration failed");
                                   ("details", JString details)]), e, w')) /\
   (forall obj,
      body = Some obj -> truthy (field "linkCode" obj) = false ->
      exists w',
        register_route body e w
          = (Ok (mkHttpResponse 400 [("error", JString "Link code is required")]),
             e, w')) /\
   (forall obj linkCode deviceId authDoId w1 w2,
      body = Some obj -> field "linkCode" obj = Some linkCode ->
      truthy_str linkCode = true ->
      randomUUID e w = (Ok deviceId, e, w1) ->
      randomUUID e w1 = (Ok authDoId, e, w2) ->
      exists resp e' w',
        register_route body e w = (Ok resp, e', w') /\
        match stub_call authDoId (register linkCode deviceId) e w2 with
        | (Ok (RegisterResult _), e2, _) =>
            e' = e2 /\
            resp = mkHttpResponse 200 [("success", JBool true);
                                       ("authId", JString authDoId);
                                       ("message", JString "Device registered successfully. Use the authId for future API calls.")]
        | (Ok (AuthError error), e2, _) =>
            e' = e2 /\ resp = mkHttpResponse 400 [("error", JString error)]
        | (Throw error, e2, _) =>
            e' = e2 /\
            resp = mkHttpResponse 500 [("error", JString "Registration failed");
                                       ("details", JString (message_of error))]
        end)).
Proof.
  unfold register_route. rewrite bind_run. unfold gets. cbv beta iota.
  split.
  - intros Hflag. apply String.eqb_neq in Hflag. rewrite Hflag. cbn [negb].
    unfold c_json, console_error, ret, bind. eauto.
  - intros Hflag. rewrite Hflag, String.eqb_refl. cbn [negb].
    unfold try_catch. split; [|split].
    + intros ->. cbn. eauto.
    + intros obj -> Hlc. rewrite bind_run. cbn [req_json]. unfold ret at 1.
      rewrite Hlc. cbn [negb]. unfold c_json, console_error, ret, bind. eauto.
    + intros obj linkCode deviceId authDoId w1 w2 -> Hf Hlc Hd Ha.
      rewrite bind_run. cbn [req_json]. unfold ret at 1.
      rewrite Hf. cbn [truthy show_undefined]. rewrite Hlc. cbn [negb].
      rewrite bind_run, Hd, bind_run, Ha, bind_run.
      destruct (stub_call authDoId (register linkCode deviceId) e w2)
        as [[[[did|err]|err] e2] w3]; cbn;
        eexists _, _, _; (split; [reflexivity|split; reflexivity]).
Qed.

(** The rejections of the [email] handler: a message without attachment, or
    with attachments and without [to] address, is rejected with a reason and
    nothing is staged. *)
Lemma email_rejects message e w :
  (attachments message = None \/ attachments message = Some []) \/
  (to message = None \/ to message = Some []) ->
  exists reason w',
    email message e w = (Ok (Some reason), e, w') /\
    (reason = "Email must contain at least one attachment" \/
     reason = "Email must have a 'to' address").
Proof.
  unfold email. intros [[Ha|Ha]|Ht].
  - rewrite Ha. cbn. eauto.
  - rewrite Ha. cbn. eauto.
  - destruct (attachments message) as [[|a atts]|]; try (cbn; eauto; fail).
    destruct Ht as [Ht|Ht]; rewrite Ht; cbn; eauto.
Qed.

(** C5, what the code does.  For a message with at least one attachment and
    at least one [to] address the handler reads the identifier [toAddress],
    which nothing binds: it throws a [ReferenceError] before it derives an
    account id, so no attachment is staged and no upload job is submitted. *)
Theorem email_with_addressee_raises message e w a atts t tos :
  attachments message = Some (a :: atts) ->
  to message = Some (t :: tos) ->
  email message e w = (Throw (ReferenceError "toAddress is not defined"), e, w).
Proof.
  intros Ha Ht. unfold email. rewrite Ha, Ht. reflexivity.
Qed.


(** * Further properties of the code *)

(** ** Host discovery *)


(** ** More on the credential methods *)

Lemma checkRegisteredStatus_frame o w r o' w' :
  checkRegisteredStatus o w = (r, o', w') ->
  (forall k, k <> "access_token" -> storage o' !! k = storage o !! k) /\
  auth_host o' = auth_host o /\ sync_host o' = sync_host o /\ live o' = live o.
Proof.
  intros H. refresh_cases H; cbn; repeat split; auto.
  intros k Hk. now rewrite lookup_insert_ne.
Qed.

Lemma checkRegisteredStatus_true o w o' w' :
  checkRegisteredStatus o w = (Ok true, o', w') ->
  exists tok, truthy_str tok = true /\ access_token o' = Some tok /\
              storage o' !! "access_token" = Some tok.
Proof.
  intros H. refresh_cases H; cbn.
  - match goal with E : unexpired_at _ _ = true |- _ =>
      apply unexpired_at_Some in E as (t & exp & Et & Hne & _) end.
    exists t. rewrite Et. repeat split.
    destruct t; [congruence|reflexivity].
  - match goal with E : _ && _ = true |- _ => apply andb_true_iff in E as [_ Et] end.
    eexists. split; [exact Et|]. split; [reflexivity|apply lookup_insert_eq].
Qed.

Lemma checkRegisteredStatus_false o w o' w' :
  checkRegisteredStatus o w = (Ok false, o', w') -> access_token o' = None.
Proof. intros H. refresh_cases H; reflexivity. Qed.

Lemma getAccessToken_frame o w r o' w' :
  getAccessToken o w = (r, o', w') ->
  (forall k, k <> "access_token" -> storage o' !! k = storage o !! k) /\
  auth_host o' = auth_host o /\ sync_host o' = sync_host o /\ live o' = live o.
Proof.
  rewrite getAccessToken_run.
  destruct (unexpired_at _ _).
  - intros H; inversion H; subst. auto.
  - destruct (checkRegisteredStatus o w) as [[[[]|e] o1] w1] eqn:E;
      intros H; inversion H; subst;
      exact (checkRegisteredStatus_frame _ _ _ _ _ E).
Qed.

Lemma getAccessToken_result_cached o w v o' w' :
  getAccessToken o w = (Ok v, o', w') ->
  access_token o' = v /\ (forall tok, v = Some tok -> truthy_str tok = true).
Proof.
  rewrite getAccessToken_run.
  destruct (unexpired_at _ _) eqn:Eu.
  - intros H; inversion H; subst. split; [reflexivity|].
    apply unexpired_at_Some in Eu as (t & exp & Et & Hne & _).
    intros tok Htok. rewrite Et in Htok. injection Htok as <-.
    destruct t; [congruence|reflexivity].
  - destruct (checkRegisteredStatus o w) as [[[[]|e] o1] w1] eqn:E;
      intros H; inversion H; subst.
    + split; [reflexivity|].
      apply checkRegisteredStatus_true in E as (tok & Ht & Hc & _).
      intros tok' Htok'. congruence.
    + split; [|discriminate]. now apply checkRegisteredStatus_false in E.
Qed.

(** X2.  [register] persists [device_id] before it calls the registration
    endpoint: when that call fails in transport, [register] raises, and the
    only change it leaves behind is the new [device_id]. *)
Theorem register_transport_failure_keeps_device_id linkCode deviceId o w :
  answered w = false ->
  exists m w',
    register linkCode deviceId o w
      = (Throw (TypeError m), set_storage (insert "device_id" deviceId) o, w') /\
    storage (set_storage (insert "device_id" deviceId) o) !! "device_id"
      = Some deviceId /\
    (forall k, k <> "device_id" ->
       storage (set_storage (insert "device_id" deviceId) o) !! k = storage o !! k) /\
    trace w' = trace w ++ [EvFetch (register_request o linkCode deviceId)].
Proof.
  unfold answered. intros Hn.
  rewrite register_run. cbv zeta. unfold fetch, register_request.
  rewrite elapse_net.
  assert (storage (set_storage (insert "device_id" deviceId) o) !! "device_id"
          = Some deviceId) as Hid by (cbn; apply lookup_insert_eq).
  assert (forall k, k <> "device_id" ->
            storage (set_storage (insert "device_id" deviceId) o) !! k
            = storage o !! k) as Hk
    by (intros k Hne; cbn; now rewrite lookup_insert_ne).
  destruct (net w) as [|[m|resp] rest]; [| |discriminate].
  - eexists _, _. split; [reflexivity|]. repeat split; auto.
    now autorewrite with world.
  - eexists _, _. split; [reflexivity|]. repeat split; auto.
    now autorewrite with world.
Qed.

(** X3.  Once the registration endpoint has answered 200 with a non-empty
    body, that body is persisted as the refresh credential whatever happens
    next: also when [register] then returns an error or raises because the
    first refresh failed, [isRegistered()] answers true from then on. *)
Theorem register_accepted_persists_refresh_credential
    linkCode deviceId o w resp rest r o' w' :
  net w = Resp resp :: rest ->
  status resp = 200%Z ->
  text resp <> EmptyString ->
  deviceId <> EmptyString ->
  register linkCode deviceId o w = (r, o', w') ->
  storage o' !! "refresh_token" = Some (text resp) /\
  storage o' !! "device_id" = Some deviceId /\
  forall w2, exists w3, isRegistered o' w2 = (Ok true, o', w3).
Proof.
  intros Hn Hs Ht Hd. rewrite register_run. cbv zeta. unfold fetch.
  rewrite elapse_net, Hn.
  replace (status resp =? 200)%Z with true by lia. cbn [negb].
  destruct (truthy_str (text resp)) eqn:Ett;
    [|destruct (text resp); [congruence|discriminate]].
  cbn [negb].
  match goal with |- context [checkRegisteredStatus ?a ?b] =>
    destruct (checkRegisteredStatus a b) as [[r1 o2] w2] eqn:E end.
  destruct (checkRegisteredStatus_frame _ _ _ _ _ E) as (Hk & _).
  intros H.
  assert (o' = o2) as -> by (destruct r1 as [[]|]; inversion H; reflexivity).
  assert (storage o2 !! "refresh_token" = Some (text resp)) as Hrt.
  { rewrite Hk by discriminate. cbn. apply lookup_insert_eq. }
  assert (storage o2 !! "device_id" = Some deviceId) as Hid.
  { rewrite Hk by discriminate. cbn.
    rewrite lookup_insert_ne by discriminate. apply lookup_insert_eq. }
  split; [exact Hrt|]. split; [exact Hid|].
  intros w2'. rewrite isRegistered_run, Hrt, Hid. cbn. rewrite Ett.
  destruct deviceId; [congruence|]. cbn. eauto.
Qed.

(** X4.  When [register] returns success, the device id it returns is the one
    it was given, that id and a non-empty refresh credential are persisted,
    and a non-empty access credential is both cached and persisted. *)
Theorem register_success_state linkCode deviceId o w d o' w' :
  register linkCode deviceId o w = (Ok (RegisterResult d), o', w') ->
  d = deviceId /\
  storage o' !! "device_id" = Some deviceId /\
  has_refresh_credential o' /\
  exists tok, tok <> EmptyString /\ access_token o' = Some tok /\
              storage o' !! "access_token" = Some tok.
Proof.
  rewrite register_run. cbv zeta.
  destruct (fetch _ _ _) as [[[resp|e] o1] w1]; [|discriminate].
  destruct (negb (status resp =? 200)%Z); [discriminate|].
  destruct (negb (truthy_str (text resp))) eqn:Et; [discriminate|].
  apply negb_false_iff in Et.
  match goal with |- context [checkRegisteredStatus ?a ?b] =>
    destruct (checkRegisteredStatus a b) as [[[[]|e] o2] w2] eqn:E end;
    try discriminate.
  intros [= <- <- <-].
  destruct (checkRegisteredStatus_frame _ _ _ _ _ E) as (Hk & _).
  destruct (checkRegisteredStatus_true _ _ _ _ E) as (tok & Htok & Hc & Hp).
  split; [reflexivity|]. split; [|split].
  - rewrite Hk by discriminate. cbn.
    rewrite lookup_insert_ne by discriminate. apply lookup_insert_eq.
  - unfold has_refresh_credential. rewrite Hk by discriminate. cbn.
    now rewrite lookup_insert_eq.
  - exists tok. split; [now apply truthy_str_nonempty|]. now split.
Qed.

(** X5.  [checkRegisteredStatus] returns true exactly when it leaves an
    access credential in the cache: after true the cache holds a non-empty
    credential, the one persisted under [access_token]; after false the
    cache is empty. *)
Theorem checkRegisteredStatus_result_is_cache o w b o' w' :
  checkRegisteredStatus o w = (Ok b, o', w') ->
  (b = true ->
   exists tok, tok <> EmptyString /\ access_token o' = Some tok /\
               storage o' !! "access_token" = Some tok) /\
  (b = false -> access_token o' = None) /\
  (b = true <-> truthy (access_token o') = true).
Proof.
  intros H. destruct b.
  - destruct (checkRegisteredStatus_true _ _ _ _ H) as (tok & Htok & Hc & Hp).
    split; [|split].
    + intros _. exists tok. split; [now apply truthy_str_nonempty|]. now split.
    + discriminate.
    + rewrite Hc. cbn. now rewrite Htok.
  - pose proof (checkRegisteredStatus_false _ _ _ _ H) as Hc.
    split; [discriminate|]. split; [auto|]. rewrite Hc. cbn. split; discriminate.
Qed.

(** X6.  [getAccessToken] caches what it returns: after a call that returned
    a credential of decodable expiry [E], any further call made before [E]
    returns the same credential, changes nothing and makes no network
    call. *)
Theorem getAccessToken_again_before_expiry o w tok o' w' E w2 :
  getAccessToken o w = (Ok (Some tok), o', w') ->
  token_exp tok = Some E ->
  (now_seconds w2 < E)%Z ->
  getAccessToken o' w2 = (Ok (Some tok), o', w2).
Proof.
  intros H HE Hlt.
  destruct (getAccessToken_result_cached _ _ _ _ _ H) as (Hc & _).
  rewrite getAccessToken_run, Hc, (unexpired_at_token _ _ _ HE).
  replace (E >? now_seconds w2)%Z with true by lia. reflexivity.
Qed.

(** X7.  [getAccessToken] writes at most the [access_token] key: the device
    id, the refresh credential and the hosts are as before, however the call
    ends, so [isRegistered()] gives the same answer after it as before
    it. *)
Theorem getAccessToken_keeps_registration o w r o' w' :
  getAccessToken o w = (r, o', w') ->
  storage o' !! "device_id" = storage o !! "device_id" /\
  storage o' !! "refresh_token" = storage o !! "refresh_token" /\
  auth_host o' = auth_host o /\ sync_host o' = sync_host o /\
  forall w2, (isRegistered o' w2).1.1 = (isRegistered o w2).1.1.
Proof.
  intros H. destruct (getAccessToken_frame _ _ _ _ _ H) as (Hk & Ha & Hs & _).
  assert (storage o' !! "device_id" = storage o !! "device_id") as Hd
    by (apply Hk; discriminate).
  assert (storage o' !! "refresh_token" = storage o !! "refresh_token") as Hr
    by (apply Hk; discriminate).
  repeat split; auto.
  intros w2. rewrite !isRegistered_run. cbn. now rewrite Hd, Hr.
Qed.

(** X8.  A cached credential whose expiry does not decode is never served
    from the cache: in a reachable state every call of [getAccessToken]
    then makes exactly one network call, the refresh request, at whatever
    time it is made. *)
Theorem undecodable_credential_refreshed_each_call o w tok :
  reachable o ->
  access_token o = Some tok ->
  token_exp tok = None ->
  exists r o' w',
    getAccessToken o w = (r, o', w') /\
    fetches (trace w') = fetches (trace w) ++ [refresh_request o].
Proof.
  intros Hreach Hc HE.
  apply reachable_coherent in Hreach as [H1 H2].
  specialize (H1 _ Hc).
  assert (forall now, unexpired_at now (Some tok) = false) as Hu.
  { intros now. unfold unexpired_at. cbn. rewrite HE. apply andb_false_r. }
  rewrite getAccessToken_run, Hc, Hu.
  rewrite checkRegisteredStatus_run. cbv zeta. rewrite H1, Hu.
  rewrite H2 by (rewrite H1; eauto).
  assert (forall w', trace w' = trace w ++ [EvFetch (refresh_request o)] ->
                     fetches (trace w') = fetches (trace w) ++ [refresh_request o]) as Hf.
  { intros w' ->. unfold fetches. now rewrite omap_app. }
  unfold fetch. rewrite !elapse_net.
  destruct (net w) as [|[m|resp] rest].
  - eexists _, _, _. split; [reflexivity|]. apply Hf. now autorewrite with world.
  - eexists _, _, _. split; [reflexivity|]. apply Hf. now autorewrite with world.
  - destruct (_ && _);
      (eexists _, _, _; split; [reflexivity|]; apply Hf; now autorewrite with world).
Qed.

(** A token without a second dot-delimited segment has no decodable expiry,
    whatever the decoder. *)
Lemma token_exp_one_segment tok :
  split "." tok !! 1%nat = None -> token_exp tok = None.
Proof. unfold token_exp. now intros ->. Qed.

(** X9.  [getStatus] reports [registered] as [isRegistered] would.  For an
    unregistered instance it reports nothing else, changes nothing and makes
    no network call.  For a registered one it reports the persisted device
    id, and [access_token_valid] tells exactly whether an access credential
    is cached once the call has returned. *)
Theorem getStatus_report o w r o' w' :
  getStatus o w = (r, o', w') ->
  let is_registered :=
    truthy (storage o !! "device_id") && truthy (storage o !! "refresh_token") in
  (is_registered = false ->
   r = Ok (mkAuthStatus false None None) /\ o' = o /\ trace w' = trace w) /\
  (is_registered = true ->
   forall st, r = Ok st ->
     registered st = true /\
     status_device_id st = storage o !! "device_id" /\
     access_token_valid st = Some (truthy (access_token o'))).
Proof.
  unfold getStatus. rewrite bind_run, isRegistered_run.
  intros H. cbv zeta.
  destruct (truthy (storage o !! "device_id")) eqn:Ed; cbn [andb negb] in *.
  - destruct (truthy (storage o !! "refresh_token")) eqn:Er; cbn [negb] in *.
    + split; [discriminate|]. intros _ st ->.
      rewrite bind_run, storage_get_run, bind_run in H.
      destruct (getAccessToken o _) as [[[v|e] o1] w1] eqn:Eg; [|discriminate].
      inversion H; subst. cbn. rewrite Ed.
      destruct (getAccessToken_result_cached _ _ _ _ _ Eg) as (Hc & _).
      now rewrite Hc.
    + inversion H; subst. split; [|discriminate]. intros _.
      repeat split. now rewrite !elapse_trace.
  - inversion H; subst. split; [|discriminate]. intros _.
    repeat split. now rewrite !elapse_trace.
Qed.

(** ** Construction and eviction *)

Lemma initializeApiHost_rejected o w :
  (forall resp rest, net w = Resp resp :: rest -> status resp <> 200%Z) ->
  exists e w',
    initializeApiHost o w = (Throw e, o, w') /\
    trace w' = trace w ++ [EvFetch discovery_request].
Proof.
  intros Hn. unfold initializeApiHost. rewrite bind_run. unfold fetch.
  destruct (net w) as [|[m|resp] rest] eqn:En.
  - eexists _, _. split; [reflexivity|]. reflexivity.
  - eexists _, _. split; [reflexivity|]. now autorewrite with world.
  - specialize (Hn _ _ eq_refl).
    replace (status resp =? 200)%Z with false by lia. cbn [negb].
    eexists _, _. split; [reflexivity|]. now autorewrite with world.
Qed.

Lemma initializeApiHost_resolved o w resp rest obj webapp notifications :
  net w = Resp resp :: rest -> status resp = 200%Z -> json resp = Some obj ->
  field "webapp" obj = Some webapp -> webapp <> EmptyString ->
  field "notifications" obj = Some notifications -> notifications <> EmptyString ->
  initializeApiHost o w
  = (Ok tt,
     set_sync_host ("https://" +:+ notifications)
       (set_auth_host ("https://" +:+ webapp) o),
     elapse (with_net rest (sent discovery_request w))).
Proof.
  intros Hn Hs Hj Hw Hwe Hno Hnoe.
  unfold initializeApiHost. rewrite bind_run. unfold fetch. rewrite Hn.
  replace (status resp =? 200)%Z with true by lia. cbn [negb].
  rewrite bind_run. unfold response_json. rewrite Hj. unfold ret at 1.
  cbv beta iota. rewrite Hw, Hno. cbn [truthy show_undefined].
  destruct webapp; [congruence|]. destruct notifications; [congruence|].
  reflexivity.
Qed.

(** X10.  When no instance is in memory and host discovery fails -- the
    endpoint is unreachable or answers with a status other than 200 -- a
    call through a stub raises without running the method: the storage is
    untouched, no instance comes to life, and the only network call is the
    discovery request. *)
Theorem stub_call_fails_when_discovery_fails {A} (call : M AuthDO A) o w :
  live o = false ->
  (forall resp rest, net w = Resp resp :: rest -> status resp <> 200%Z) ->
  exists e o1 w',
    rpc call o w = (Throw e, o1, w') /\
    storage o1 = storage o /\ live o1 = false /\
    trace w' = trace w ++ [EvFetch discovery_request].
Proof.
  intros Hl Hn. unfold rpc. rewrite bind_run. unfold gets at 1. rewrite Hl.
  cbv beta iota. rewrite bind_run. unfold construct.
  rewrite bind_run. unfold modify at 1. cbv beta iota. rewrite bind_run.
  destruct (initializeApiHost_rejected (set_access_token None o) w Hn)
    as (e & w' & Hi & Ht).
  rewrite Hi. exists e, (set_access_token None o), w'. auto.
Qed.

Lemma latest_elapse w : latest (elapse w) = latest w.
Proof.
  unfold elapse. destruct (ticks w) as [|d rest] eqn:E; [reflexivity|].
  unfold latest. rewrite E. cbn. lia.
Qed.

Lemma clock_le_latest w : (clock_ms w <= latest w)%Z.
Proof. unfold latest. lia. Qed.

Lemma now_seconds_le_latest w : (now_seconds w <= latest w / 1000)%Z.
Proof. unfold now_seconds. apply Z.div_le_mono; [lia|apply clock_le_latest]. Qed.

(** X11.  An eviction does not lose the access credential: when an instance
    that is not in memory holds a persisted credential of expiry [E], and
    discovery succeeds, a call of [getAccessToken] through a stub made
    before [E] constructs the instance, returns that credential and makes
    no network call besides the discovery request. *)
Theorem evicted_instance_recovers_credential
    o w resp rest obj webapp notifications tok E :
  live o = false ->
  storage o !! "access_token" = Some tok ->
  token_exp tok = Some E ->
  (latest w / 1000 < E)%Z ->
  net w = Resp resp :: rest -> status resp = 200%Z -> json resp = Some obj ->
  field "webapp" obj = Some webapp -> webapp <> EmptyString ->
  field "notifications" obj = Some notifications -> notifications <> EmptyString ->
  exists o' w',
    rpc getAccessToken o w = (Ok (Some tok), o', w') /\
    live o' = true /\ access_token o' = Some tok /\ storage o' = storage o /\
    trace w' = trace w ++ [EvFetch discovery_request].
Proof.
  intros Hl Hst HE Hlt Hn Hs Hj Hw Hwe Hno Hnoe.
  unfold rpc. rewrite bind_run. unfold gets at 1. rewrite Hl.
  cbv beta iota. rewrite bind_run. unfold construct.
  rewrite bind_run. unfold modify at 1. cbv beta iota. rewrite bind_run.
  rewrite (initializeApiHost_resolved _ _ _ _ _ _ _ Hn Hs Hj Hw Hwe Hno Hnoe).
  rewrite bind_run, checkRegisteredStatus_run. cbv zeta. cbn [storage set_sync_host set_auth_host set_access_token].
  rewrite Hst, (unexpired_at_token _ _ _ HE).
  set (w1 := elapse (elapse (with_net rest (sent discovery_request w)))).
  assert (latest w1 = latest w) as Hl1.
  { subst w1. now rewrite !latest_elapse. }
  pose proof (now_seconds_le_latest w1) as Hle. rewrite Hl1 in Hle.
  replace (E >? now_seconds w1)%Z with true by lia.
  unfold modify. cbv beta iota.
  rewrite getAccessToken_run. cbn [access_token set_live set_access_token].
  rewrite (unexpired_at_token _ _ _ HE).
  replace (E >? now_seconds w1)%Z with true by lia.
  eexists _, _. split; [reflexivity|]. cbn. repeat split.
  subst w1. now autorewrite with world.
Qed.

(** ** Invariants of the reachable states *)

(** X12.  In every state an instance can reach through calls and evictions,
    a cached access credential is the one persisted under [access_token],
    and an access credential is persisted only while a non-empty refresh
    credential is persisted too. *)
Theorem reachable_cache_is_persisted o :
  reachable o ->
  (forall tok, access_token o = Some tok -> storage o !! "access_token" = Some tok) /\
  (forall tok, storage o !! "access_token" = Some tok -> has_refresh_credential o).
Proof.
  intros H. apply reachable_coherent in H as [H1 H2].
  split; [exact H1|]. intros tok Ht. apply H2. rewrite Ht. eauto.
Qed.

Lemma initializeApiHost_keeps_refresh :
  preserves has_refresh_credential initializeApiHost.
Proof.
  unfold initializeApiHost, response_json.
  repeat preserve_step; assumption.
Qed.

(** X13.  A registered device stays registered: a call of any method but
    [destroy] through a stub, construction of the instance included and
    whatever the network does, leaves a non-empty refresh credential
    persisted. *)
Theorem registered_until_destroyed c o w r o' w' :
  c <> CallDestroy ->
  has_refresh_credential o ->
  rpc (run_call c) o w = (r, o', w') ->
  has_refresh_credential o'.
Proof.
  intros Hc Ho H.
  assert (preserves has_refresh_credential (rpc (run_call c))) as Hp.
  { unfold rpc, construct.
    repeat preserve_step;
      try assumption;
      try apply initializeApiHost_keeps_refresh;
      try apply checkRegisteredStatus_keeps_refresh;
      now apply only_destroy_removes_refresh_credential. }
  exact (Hp o w r o' w' H Ho).
Qed.

(** X14.  [getAccessToken] makes at most one network call, and that call is
    the refresh request to the token endpoint carrying the persisted
    refresh credential: whatever the state and the outcome, nothing else is
    sent and nothing is reported. *)
Theorem getAccessToken_network_calls o w r o' w' :
  getAccessToken o w = (r, o', w') ->
  trace w' = trace w \/ trace w' = trace w ++ [EvFetch (refresh_request o)].
Proof.
  intros H. refresh_cases H; autorewrite with world; auto.
Qed.

(** ** Staging a document *)

Lemma elapse_uuids w : uuids (elapse w) = uuids w.
Proof. unfold elapse. destruct (ticks w); reflexivity. Qed.

(** X15.  For a registered account [uploadFile] stages the document under
    the next fresh identifier and submits exactly one job for it: the bucket
    gains that one object, holding the file's bytes, type and name, with
    [uploadedBy] the requester or [web-upload]; the job's parameters name
    the document and the account, with the requester only when one is
    given.  The first step of that job then finds the document, with the
    size of the file. *)
Theorem uploadFile_stages_and_submits
    file authDoId email e w e1 w1 fileId workflowId ids :
  stub_call authDoId isRegistered e w = (Ok true, e1, w1) ->
  uuids w1 = fileId :: workflowId :: ids ->
  let obj :=
    mkR2Object (file_content file) (clock_ms w1)
      (Some (mkHttpMetadata (Some (file_type file))
               (Some ("attachment; filename=" +:+ dquote +:+ file_name file +:+ dquote))))
      (Some (mkCustomMetadata (file_name file) (or_else email "web-upload")
               (clock_ms w1) authDoId)) in
  let params :=
    mkWorkflowParams (if truthy email then email else None)
      fileId (file_name file) authDoId in
  let e2 :=
    set_MY_WORKFLOW (fun l => l ++ [mkWorkflowInstance workflowId params])
      (set_DOCUMENT_STORAGE (insert fileId obj) e1) in
  exists w',
    uploadFile file authDoId email e w
      = (Ok (mkUploadResult true fileId (file_name file) workflowId Queued email None),
         e2, w') /\
    DOCUMENT_STORAGE e2 = <[fileId := obj]> (DOCUMENT_STORAGE e) /\
    MY_WORKFLOW e2 = MY_WORKFLOW e ++ [mkWorkflowInstance workflowId params] /\
    trace w' = trace w1 /\
    forall w3, exists w4,
      retrieve_file_info params e2 w3
        = (Ok (mkFileInfo (wp_email params) fileId (file_name file)
                 (length (file_content file)) (clock_ms w1) authDoId),
           e2, w4).
Proof.
  intros H Hu obj params e2.
  destruct (stub_call_frame _ _ _ _ _ _ _ H) as (Hd & Hw & _).
  unfold uploadFile. rewrite bind_run, H. cbn [negb].
  rewrite bind_run. unfold randomUUID at 1. rewrite Hu.
  rewrite bind_run. unfold Date_now at 1. cbv beta iota.
  rewrite bind_run. unfold bucket_put at 1. rewrite bind_run.
  unfold await_tick at 1, modify at 1. cbv beta iota.
  rewrite bind_run. unfold workflow_create. rewrite bind_run.
  unfold await_tick at 1. cbv beta iota. rewrite bind_run.
  unfold randomUUID at 1. rewrite !elapse_uuids. cbn [uuids with_uuids].
  rewrite bind_run. unfold modify at 1. cbv beta iota. unfold ret at 1.
  cbv beta iota. rewrite bind_run. unfold instance_status. rewrite bind_run.
  unfold await_tick at 1, ret. cbv beta iota. cbn [instance_id clock_ms with_uuids].
  eexists. split; [reflexivity|].
  split; [subst e2; cbn; now rewrite Hd|].
  split; [subst e2; cbn; now rewrite Hw|].
  split.
  { rewrite !elapse_trace. cbn. now rewrite !elapse_trace. }
  intros w3. unfold retrieve_file_info. rewrite bind_run.
  unfold bucket_get. rewrite bind_run. unfold await_tick at 1, gets.
  cbv beta iota. subst e2. cbn [DOCUMENT_STORAGE set_MY_WORKFLOW set_DOCUMENT_STORAGE wp_fileId params].
  rewrite lookup_insert_eq. cbn. eauto.
Qed.

(** ** More on the delayed job *)

Lemma env_keeps_bind {A B} P (c : M Env A) (k : A -> M Env B) :
  env_keeps P c -> (forall a, env_keeps P (k a)) -> env_keeps P (bind c k).
Proof.
  intros Hc Hk e w r e' w' H He. unfold bind in H.
  destruct (c e w) as [[[a|err] e1] w1] eqn:Ec.
  - eapply Hk; eauto.
  - inversion H; subst. eapply Hc; eauto.
Qed.

Lemma env_keeps_try_catch {A} P (c : M Env A) (h : JsError -> M Env A) :
  env_keeps P c -> (forall err, env_keeps P (h err)) -> env_keeps P (try_catch c h).
Proof.
  intros Hc Hh e w r e' w' H He. unfold try_catch in H.
  destruct (c e w) as [[[a|err] e1] w1] eqn:Ec.
  - inversion H; subst. eapply Hc; eauto.
  - eapply Hh; eauto.
Qed.

Lemma env_keeps_attempts {A} P (c : M Env A) n :
  env_keeps P c -> env_keeps P (attempts n c).
Proof.
  intros Hc. induction n as [|n IH]; cbn [attempts]; [exact Hc|].
  apply env_keeps_try_catch; auto.
Qed.

Lemma env_keeps_pure {A} P (c : M Env A) :
  (forall e w, snd (fst (c e w)) = e) -> env_keeps P c.
Proof.
  intros Hc e w r e' w' H He. specialize (Hc e w). rewrite H in Hc.
  cbn in Hc. now subst.
Qed.

Lemma env_keeps_stub_call {A} P name (call : M AuthDO A) :
  (forall e f, P e -> P (set_AUTH_DO f e)) -> env_keeps P (stub_call name call).
Proof.
  intros HP e w r e' w' H He. unfold stub_call in H.
  destruct (rpc call _ w) as [[r0 o0] w0]. inversion H; subst. now apply HP.
Qed.

Lemma before_cleanup_keeps_staging payload d l :
  env_keeps (same_staging d l) (before_cleanup payload).
Proof.
  assert (forall f e, same_staging d l e -> same_staging d l (set_AUTH_DO f e)) as Hs
    by (intros f e He; exact He).
  unfold before_cleanup, step_do.
  apply env_keeps_bind.
  { apply env_keeps_attempts. unfold retrieve_file_info.
    apply env_keeps_bind; [now apply env_keeps_pure|].
    intros [f|]; now apply env_keeps_pure. }
  intros fileInfo. apply env_keeps_bind.
  { apply env_keeps_attempts. unfold get_authentication.
    apply env_keeps_bind; [apply env_keeps_stub_call; auto|].
    intros tok. destruct (negb _); now apply env_keeps_pure. }
  intros authInfo. apply env_keeps_bind.
  { apply env_keeps_attempts. unfold upload_to_api.
    apply env_keeps_bind; [now apply env_keeps_pure|].
    intros [f|]; [|now apply env_keeps_pure].
    apply env_keeps_bind; [now apply env_keeps_pure|].
    intros rmMetaBase64. apply env_keeps_bind.
    { apply env_keeps_pure. intros e w. unfold fetch.
      destruct (net w) as [|[?|?] ?]; reflexivity. }
    intros response. destruct (negb _).
    - apply env_keeps_bind; [now apply env_keeps_pure|].
      intros _. now apply env_keeps_pure.
    - apply env_keeps_bind.
      { apply env_keeps_pure. intros e w. unfold response_json.
        destruct (json response); reflexivity. }
      intros result. apply env_keeps_bind; [now apply env_keeps_pure|].
      intros now. now apply env_keeps_pure. }
  intros apiResponse. apply env_keeps_bind; [now apply env_keeps_pure|].
  intros _. now apply env_keeps_pure.
Qed.

(** What one attempt of the cleanup step leaves: the blob deleted and a
    return, or everything as it was and a throw. *)
Lemma cleanup_outcome fileInfo e w r e' w' :
  cleanup fileInfo e w = (r, e', w') ->
  (r = Ok tt /\ e' = set_DOCUMENT_STORAGE (delete (fi_fileId fileInfo)) e) \/
  (exists err, r = Throw err /\ e' = e).
Proof.
  unfold cleanup, try_catch, bucket_delete. rewrite bind_run.
  unfold await_tick. cbv beta iota.
  destruct (r2_delete (elapse w)) as [|[m|] rest]; intros H; inversion H; subst;
    eauto.
Qed.

Lemma attempts_cleanup_outcome fileInfo n : forall e w r e' w',
  attempts n (cleanup fileInfo) e w = (r, e', w') ->
  (r = Ok tt /\ e' = set_DOCUMENT_STORAGE (delete (fi_fileId fileInfo)) e) \/
  (exists err, r = Throw err /\ e' = e).
Proof.
  induction n as [|n IH]; intros e w r e' w' H; cbn [attempts] in H.
  - eapply cleanup_outcome; eauto.
  - unfold try_catch in H.
    destruct (cleanup fileInfo e w) as [[[[]|err] e1] w1] eqn:Ec.
    + inversion H; subst. eapply cleanup_outcome; eauto.
    + destruct (cleanup_outcome _ _ _ _ _ _ Ec) as [[? _]|(err' & _ & ->)];
        [discriminate|]. eapply IH; eauto.
Qed.

(** The [fileInfo] the first step hands on names the document of the job. *)
Lemma attempts_result {A} (Q : A -> Prop) (c : M Env A) n :
  (forall e w a e' w', c e w = (Ok a, e', w') -> Q a) ->
  forall e w a e' w', attempts n c e w = (Ok a, e', w') -> Q a.
Proof.
  intros Hc. induction n as [|n IH]; intros e w a e' w' H; cbn [attempts] in H.
  - eapply Hc; eauto.
  - unfold try_catch in H.
    destruct (c e w) as [[[a0|err] e1] w1] eqn:Ec.
    + inversion H; subst. eapply Hc; eauto.
    + eapply IH; eauto.
Qed.

Lemma before_cleanup_fileInfo payload e w fileInfo e1 w1 :
  before_cleanup payload e w = (Ok fileInfo, e1, w1) ->
  fi_fileId fileInfo = wp_fileId payload /\
  fi_fileName fileInfo = wp_fileName payload.
Proof.
  unfold before_cleanup, step_do. rewrite bind_run.
  destruct (attempts retry_limit (retrieve_file_info payload) e w)
    as [[[fi|err] e0] w0] eqn:E; [|discriminate].
  assert (fi_fileId fi = wp_fileId payload /\ fi_fileName fi = wp_fileName payload) as Hfi.
  { eapply (attempts_result
              (fun fi => fi_fileId fi = wp_fileId payload /\
                         fi_fileName fi = wp_fileName payload)); [|exact E].
    intros e2 w2 a e3 w3. unfold retrieve_file_info. rewrite bind_run.
    unfold bucket_get. rewrite bind_run. unfold await_tick at 1, gets.
    cbv beta iota. destruct (DOCUMENT_STORAGE e2 !! wp_fileId payload);
      intros H; inversion H; subst; auto. }
  rewrite bind_run.
  destruct (attempts retry_limit (get_authentication payload) e0 w0)
    as [[[tok|err] e2] w2]; [|discriminate].
  rewrite bind_run.
  destruct (attempts retry_limit (upload_to_api payload fi tok) e2 w2)
    as [[[api|err] e3] w3]; [|discriminate].
  intros H. inversion H; subst. exact Hfi.
Qed.

(** X16.  [run] deletes the staged document only when it completes: a run
    that rejects, at whatever step, leaves the bucket as it was, a run that
    resolves has deleted the document of the job and nothing else, and no
    run submits a job. *)
Theorem run_deletes_only_on_completion payload e w r e' w' :
  run payload e w = (r, e', w') ->
  MY_WORKFLOW e' = MY_WORKFLOW e /\
  (forall err, r = Throw err -> DOCUMENT_STORAGE e' = DOCUMENT_STORAGE e) /\
  (r = Ok tt ->
   DOCUMENT_STORAGE e' = delete (wp_fileId payload) (DOCUMENT_STORAGE e)) /\
  (forall key, key <> wp_fileId payload ->
     DOCUMENT_STORAGE e' !! key = DOCUMENT_STORAGE e !! key).
Proof.
  unfold run. rewrite bind_run.
  destruct (before_cleanup payload e w) as [[[fileInfo|err] e1] w1] eqn:Eb.
  - destruct (before_cleanup_keeps_staging payload _ _ _ _ _ _ _ Eb
                (conj eq_refl eq_refl)) as [Hd Hw].
    destruct (before_cleanup_fileInfo _ _ _ _ _ _ Eb) as [Hid _].
    rewrite bind_run. unfold step_do.
    destruct (attempts retry_limit (cleanup fileInfo) e1 w1) as [[r1 e2] w2] eqn:Ec.
    destruct (attempts_cleanup_outcome _ _ _ _ _ _ _ Ec) as [[-> ->]|(err & -> & ->)];
      intros H; inversion H; subst; cbn; rewrite ?Hd, ?Hw, ?Hid.
    + split; [reflexivity|]. split; [discriminate|]. split; [reflexivity|].
      intros key Hk. now rewrite lookup_delete_ne.
    + split; [reflexivity|]. split; [reflexivity|]. split; [discriminate|].
      reflexivity.
  - destruct (before_cleanup_keeps_staging payload _ _ _ _ _ _ _ Eb
                (conj eq_refl eq_refl)) as [Hd Hw].
    intros H. inversion H; subst. rewrite Hd, Hw.
    split; [reflexivity|]. split; [reflexivity|]. split; [discriminate|].
    reflexivity.
Qed.

Lemma retrieve_file_info_missing payload e w :
  DOCUMENT_STORAGE e !! wp_fileId payload = None ->
  retrieve_file_info payload e w
  = (Throw (Error ("File with ID " +:+ wp_fileId payload +:+ " not found")),
     e, elapse w).
Proof.
  intros H. unfold retrieve_file_info. rewrite bind_run.
  unfold bucket_get. rewrite bind_run. unfold await_tick at 1, gets.
  cbv beta iota. now rewrite H.
Qed.

(** X17.  When the staged document is missing from the bucket, [run] rejects
    with the not-found error of its first step, after all the attempts the
    engine makes: nothing else happens, no account instance is touched, no
    network call is made and nothing is reported. *)
Theorem run_without_blob_fails_first payload e w :
  DOCUMENT_STORAGE e !! wp_fileId payload = None ->
  exists w',
    run payload e w
      = (Throw (Error ("File with ID " +:+ wp_fileId payload +:+ " not found")),
         e, w') /\
    trace w' = trace w.
Proof.
  intros Hm.
  assert (forall n w0, exists w',
            attempts n (retrieve_file_info payload) e w0
            = (Throw (Error ("File with ID " +:+ wp_fileId payload +:+ " not found")),
               e, w') /\ trace w' = trace w0) as Ha.
  { induction n as [|n IH]; intros w0; cbn [attempts].
    - rewrite (retrieve_file_info_missing _ _ _ Hm). eexists. split; [reflexivity|].
      apply elapse_trace.
    - unfold try_catch. rewrite (retrieve_file_info_missing _ _ _ Hm).
      destruct (IH (elapse w0)) as (w' & Hr & Ht). exists w'.
      split; [exact Hr|]. now rewrite Ht, elapse_trace. }
  destruct (Ha retry_limit w) as (w' & Hr & Ht).
  exists w'. split; [|exact Ht].
  unfold run, before_cleanup, step_do. rewrite !bind_run. now rewrite Hr.
Qed.

(** *** The clock never goes back *)

Lemma later_refl w : later w w.
Proof. unfold later. lia. Qed.

Lemma later_trans w1 w2 w3 : later w1 w2 -> later w2 w3 -> later w1 w3.
Proof. unfold later. lia. Qed.

Lemma later_elapse w : later w (elapse w).
Proof. apply elapse_clock. Qed.

Lemma mono_ret {S A} (a : A) : world_always later (@ret S A a).
Proof. intros s w r s' w' H. inversion H; subst. apply later_refl. Qed.

Lemma mono_throw {S A} e : world_always later (@throw S A e).
Proof. intros s w r s' w' H. inversion H; subst. apply later_refl. Qed.

Lemma mono_gets {S A} (f : S -> A) : world_always later (gets f).
Proof. intros s w r s' w' H. inversion H; subst. apply later_refl. Qed.

Lemma mono_modify {S} (f : S -> S) : world_always later (modify f).
Proof. intros s w r s' w' H. inversion H; subst. apply later_refl. Qed.

Lemma mono_await_tick {S} : world_always later (@await_tick S).
Proof. intros s w r s' w' H. inversion H; subst. apply later_elapse. Qed.

Lemma mono_Date_now {S} : world_always later (@Date_now S).
Proof. intros s w r s' w' H. inversion H; subst. apply later_refl. Qed.

Lemma mono_console_error {S} line : world_always later (@console_error S line).
Proof. intros s w r s' w' H. inversion H; subst. unfold later. cbn. lia. Qed.

Lemma mono_fetch {S} req : world_always later (@fetch S req).
Proof.
  intros s w r s' w' H. unfold fetch in H.
  destruct (net w) as [|[m|resp] rest]; inversion H; subst;
    try (unfold later; cbn; lia);
    (eapply later_trans; [|apply later_elapse]; unfold later; cbn; lia).
Qed.

Lemma mono_bind {S A B} (c : M S A) (k : A -> M S B) :
  world_always later c -> (forall a, world_always later (k a)) ->
  world_always later (bind c k).
Proof.
  intros Hc Hk s w r s' w' H. unfold bind in H.
  destruct (c s w) as [[[a|err] s1] w1] eqn:Ec.
  - eapply later_trans; [eapply Hc|eapply Hk]; eauto.
  - inversion H; subst. eapply Hc; eauto.
Qed.

Lemma mono_try_catch {S A} (c : M S A) (h : JsError -> M S A) :
  world_always later c -> (forall err, world_always later (h err)) ->
  world_always later (try_catch c h).
Proof.
  intros Hc Hh s w r s' w' H. unfold try_catch in H.
  destruct (c s w) as [[[a|err] s1] w1] eqn:Ec.
  - inversion H; subst. eapply Hc; eauto.
  - eapply later_trans; [eapply Hc|eapply Hh]; eauto.
Qed.

Lemma mono_attempts {A} (c : M Env A) n :
  world_always later c -> world_always later (attempts n c).
Proof.
  intros Hc. induction n as [|n IH]; cbn [attempts]; [exact Hc|].
  apply mono_try_catch; auto.
Qed.

Lemma mono_host_call {S A} (r : Result A) : world_always later (@host_call S A r).
Proof. intros s w r' s' w' H. inversion H; subst. apply later_refl. Qed.

Ltac mono_step :=
  lazymatch goal with
  | |- world_always later (bind _ _) => apply mono_bind; [|intros ?]
  | |- world_always later (ret _) => apply mono_ret
  | |- world_always later (throw _) => apply mono_throw
  | |- world_always later (gets _) => apply mono_gets
  | |- world_always later (host_call _) => apply mono_host_call
  | |- world_always later (modify _) => apply mono_modify
  | |- world_always later await_tick => apply mono_await_tick
  | |- world_always later Date_now => apply mono_Date_now
  | |- world_always later (console_error _) => apply mono_console_error
  | |- world_always later (fetch _) => apply mono_fetch
  | |- world_always later (if ?b then _ else _) => destruct b
  | |- world_always later (match ?x with Some _ => _ | None => _ end) => destruct x
  end.

Lemma mono_checkRegisteredStatus : world_always later checkRegisteredStatus.
Proof.
  unfold checkRegisteredStatus, unexpired, storage_get, storage_put.
  repeat mono_step.
Qed.

Lemma mono_getAccessToken : world_always later getAccessToken.
Proof.
  unfold getAccessToken, unexpired.
  repeat mono_step; apply mono_checkRegisteredStatus.
Qed.

Lemma mono_rpc {A} (call : M AuthDO A) :
  world_always later call -> world_always later (rpc call).
Proof.
  intros Hc. unfold rpc, construct, initializeApiHost, response_json.
  repeat mono_step; try apply mono_checkRegisteredStatus; exact Hc.
Qed.

Lemma mono_stub_call {A} name (call : M AuthDO A) :
  world_always later call -> world_always later (stub_call name call).
Proof.
  intros Hc e w r e' w' H. unfold stub_call in H.
  destruct (rpc call _ w) as [[r0 o0] w0] eqn:E. inversion H; subst.
  eapply mono_rpc; eauto.
Qed.

(** X18.  The staged document is kept for at least twenty-four hours: when
    [run] reaches the cleanup step, the clock stands at least twenty-four
    hours after the start of the job. *)
Theorem cleanup_not_before_24_hours payload e w fileInfo e1 w1 :
  before_cleanup payload e w = (Ok fileInfo, e1, w1) ->
  (clock_ms w + 86400000 <= clock_ms w1)%Z.
Proof.
  unfold before_cleanup, step_do.
  set (steps :=
         (fileInfo <- attempts retry_limit (retrieve_file_info payload) ;;
          authInfo <- attempts retry_limit (get_authentication payload) ;;
          apiResponse <- attempts retry_limit (upload_to_api payload fileInfo authInfo) ;;
          ret fileInfo)).
  assert (world_always later steps) as Hm.
  { subst steps. apply mono_bind.
    { apply mono_attempts. unfold retrieve_file_info, bucket_get.
      repeat mono_step. }
    intros fi. apply mono_bind.
    { apply mono_attempts. unfold get_authentication.
      apply mono_bind; [apply mono_stub_call, mono_getAccessToken|].
      intros tok. repeat mono_step. }
    intros tok. apply mono_bind; [|intros; apply mono_ret].
    apply mono_attempts. unfold upload_to_api, bucket_get, response_json.
    repeat mono_step. }
  intros H.
  assert (exists e0 w0, steps e w = (Ok fileInfo, e0, w0) /\
                        clock_ms w1 = (clock_ms w0 + twenty_four_hours)%Z)
    as (e0 & w0 & Hs & Hc).
  { subst steps. unfold bind in *.
    destruct (attempts retry_limit (retrieve_file_info payload) e w)
      as [[[fi|err] ea] wa]; [|discriminate].
    destruct (attempts retry_limit (get_authentication payload) ea wa)
      as [[[tok|err] eb] wb]; [|discriminate].
    destruct (attempts retry_limit (upload_to_api payload fi tok) eb wb)
      as [[[api|err] ec] wc]; [|discriminate].
    cbn in H. inversion H; subst. eexists _, _. split; reflexivity. }
  specialize (Hm _ _ _ _ _ Hs). unfold later in Hm.
  rewrite Hc. unfold twenty_four_hours. lia.
Qed.

(** ** More on the routes and the email handler *)

(** X19.  [POST /upload] always answers.  A body that is not form data gives
    status 500; a missing [file] gives [{error}] with status 400, and so
    does a missing or empty [authId], in that order and without touching
    anything.  Otherwise the answer follows [uploadFile]: [{success,
    fileId}] with status 200 when it returns, [{error, details}] with
    status 500 when it throws.  In particular an upload for an account that
    is not registered is answered with status 500, and nothing is
    staged. *)
Theorem upload_route_responses form e w :
  (form = None ->
   exists details w',
     upload_route form e w
       = (Ok (mkHttpResponse 500 [("error", JString "Failed to process file upload");
                                  ("details", JString details)]), e, w')) /\
  (forall authId,
     form = Some (None, authId) ->
     exists w',
       upload_route form e w
         = (Ok (mkHttpResponse 400 [("error", JString "No file provided")]), e, w')) /\
  (forall file authId,
     form = Some (Some file, authId) -> truthy authId = false ->
     exists w',
       upload_route form e w
         = (Ok (mkHttpResponse 400 [("error", JString "authId is required")]), e, w')) /\
  (forall file authId,
     form = Some (Some file, Some authId) -> truthy_str authId = true ->
     match uploadFile file authId None e w with
     | (Ok result, e2, w2) =>
         upload_route form e w
           = (Ok (mkHttpResponse 200
                    [("success", JBool (ur_success result));
                     ("error", match ur_error result with
                               | Some m => JString m
                               | None => JUndefined
                               end);
                     ("fileId", JString (ur_fileId result))]), e2, w2)
     | (Throw error, e2, _) =>
         exists w',
           upload_route form e w
             = (Ok (mkHttpResponse 500
                      [("error", JString "Failed to process file upload");
                       ("details", JString (message_of error))]), e2, w')
     end) /\
  (forall file authId e1 w1,
     form = Some (Some file, Some authId) -> truthy_str authId = true ->
     stub_call authId isRegistered e w = (Ok false, e1, w1) ->
     exists w',
       upload_route form e w
         = (Ok (mkHttpResponse 500
                  [("error", JString "Failed to process file upload");
                   ("details", JString "Device not registered or authentication expired")]),
            e1, w') /\
       DOCUMENT_STORAGE e1 = DOCUMENT_STORAGE e /\
       MY_WORKFLOW e1 = MY_WORKFLOW e).
Proof.
  unfold upload_route, try_catch.
  split; [|split; [|split; [|split]]].
  - intros ->. cbn. eauto.
  - intros authId ->. cbn. eauto.
  - intros file authId -> Ha. rewrite bind_run. cbn [req_formData]. unfold ret at 1.
    cbv beta iota. cbn [fst snd]. rewrite Ha. cbn. eauto.
  - intros file authId -> Ha.
    destruct (uploadFile file authId None e w) as [[[result|err] e2] w2] eqn:Eu;
      rewrite bind_run; cbn [req_formData]; unfold ret at 1;
      cbv beta iota; cbn [fst snd truthy show_undefined]; rewrite Ha; cbn [negb];
      rewrite bind_run, Eu; cbn; eauto.
  - intros file authId e1 w1 -> Ha Hr.
    destruct (stub_call_frame _ _ _ _ _ _ _ Hr) as (Hd & Hw & _).
    rewrite bind_run. cbn [req_formData]. unfold ret at 1.
    cbv beta iota. cbn [fst snd truthy show_undefined]. rewrite Ha. cbn [negb].
    rewrite bind_run. unfold uploadFile. rewrite bind_run, Hr. cbn. eauto.
Qed.

Lemma construct_ok_live o w o1 w1 :
  construct o w = (Ok tt, o1, w1) -> live o1 = true.
Proof.
  unfold construct. rewrite bind_run. unfold modify at 1. cbv beta iota.
  rewrite bind_run.
  destruct (initializeApiHost _ w) as [[[[]|e] oa] wa]; [|discriminate].
  rewrite bind_run.
  destruct (checkRegisteredStatus oa wa) as [[[b|e] ob] wb]; [|discriminate].
  intros H. inversion H; subst. reflexivity.
Qed.

Lemma rpc_destroy_ok o w o' w' :
  rpc destroy o w = (Ok tt, o', w') ->
  live o' = true /\ storage o' = ∅ /\ access_token o' = None.
Proof.
  unfold rpc. rewrite bind_run. unfold gets at 1. cbv beta iota.
  destruct (live o) eqn:El.
  - rewrite bind_run. unfold ret at 1. cbv beta iota. rewrite destroy_run.
    intros H. inversion H; subst. cbn. auto.
  - rewrite bind_run.
    destruct (construct o w) as [[[[]|e] o1] w1] eqn:Ec; [|discriminate].
    apply construct_ok_live in Ec. rewrite destroy_run.
    intros H. inversion H; subst. cbn. auto.
Qed.

Lemma initializeApiHost_frame o w r o' w' :
  initializeApiHost o w = (r, o', w') ->
  storage o' = storage o /\ trace w' = trace w ++ [EvFetch discovery_request].
Proof.
  unfold initializeApiHost. rewrite bind_run. unfold fetch.
  destruct (net w) as [|[m|resp] rest];
    try (intros H; inversion H; subst; split;
         [reflexivity|now autorewrite with world]).
  destruct (negb (status resp =? 200)%Z);
    [intros H; inversion H; subst; split;
     [reflexivity|now autorewrite with world]|].
  rewrite bind_run. unfold response_json.
  destruct (json resp) as [obj|];
    [|intros H; inversion H; subst; split;
      [reflexivity|now autorewrite with world]].
  unfold ret at 1. cbv beta iota.
  destruct (negb (truthy (field "webapp" obj)));
    [intros H; inversion H; subst; split;
     [reflexivity|now autorewrite with world]|].
  rewrite bind_run. unfold modify at 1. cbv beta iota.
  destruct (negb (truthy (field "notifications" obj)));
    intros H; inversion H; subst; split;
    solve [reflexivity|now autorewrite with world].
Qed.

(** X20.  After [DELETE /auth/:authId] has answered with status 200 the
    account's persisted record is empty and its instance in memory.  As
    long as the record is as the delete left it -- at any later time, in
    any state of the other accounts, and whether or not the instance has
    been evicted since -- [GET /auth/:authId/status] leaves the record as it
    is and never reports the account registered.  With the instance in
    memory it answers [{registered: false}] with status 200 and makes no
    network call.  With the instance evicted the constructor runs first:
    the only network call is the discovery request, and the route answers
    [{registered: false}] with status 200 when discovery succeeds, and
    with status 500 and the discovery error, which it reports, when
    discovery fails. *)
Theorem delete_then_status_unregistered authId e w resp e1 w1 :
  delete_route authId e w = (Ok resp, e1, w1) ->
  http_status resp = 200%Z ->
  (exists o1, AUTH_DO e1 !! authId = Some o1 /\ storage o1 = ∅ /\ live o1 = true) /\
  forall e2 w2,
    storage <$> AUTH_DO e2 !! authId = storage <$> AUTH_DO e1 !! authId ->
    let o2 := default fresh_do (AUTH_DO e2 !! authId) in
    let unregistered := mkHttpResponse 200 [("registered", JBool false)] in
    exists resp2 e3 w3,
      status_route authId e2 w2 = (Ok resp2, e3, w3) /\
      storage <$> AUTH_DO e3 !! authId = storage <$> AUTH_DO e1 !! authId /\
      if live o2 then
        resp2 = unregistered /\ trace w3 = trace w2
      else
        match initializeApiHost (set_access_token None o2) w2 with
        | (Ok _, _, _) =>
            resp2 = unregistered /\
            trace w3 = trace w2 ++ [EvFetch discovery_request]
        | (Throw error, _, _) =>
            resp2 = mkHttpResponse 500
                      [("error", JString "Failed to check status");
                       ("details", JString (message_of error))] /\
            trace w3 = trace w2 ++
                       [EvFetch discovery_request;
                        EvConsoleError ("Status check error: " +:+ message_of error)]
        end.
Proof.
  unfold delete_route, try_catch. rewrite bind_run. unfold stub_call at 1.
  destruct (rpc destroy (default fresh_do (AUTH_DO e !! authId)) w)
    as [[[[]|err] o1] wa] eqn:Er.
  2:{ cbn. intros H. inversion H; subst. cbn. discriminate. }
  cbn. intros H _. inversion H; subst. clear H.
  destruct (rpc_destroy_ok _ _ _ _ Er) as (Hl & Hs & Hc).
  cbn [AUTH_DO set_AUTH_DO]. rewrite lookup_insert_eq.
  split; [exists o1; auto|].
  intros e2 w2 Hrec.
  destruct (AUTH_DO e2 !! authId) as [o|] eqn:E2; [|discriminate].
  cbn in Hrec. injection Hrec as Hrec. rewrite Hs in Hrec. cbn [default].
  unfold status_route, try_catch. rewrite bind_run.
  unfold stub_call. rewrite E2. cbn [default]. unfold rpc. rewrite bind_run.
  unfold gets at 1. cbv beta iota. unfold id.
  destruct (live o) eqn:Elive.
  - rewrite bind_run. unfold ret at 1. cbv beta iota.
    unfold getStatus. rewrite bind_run, isRegistered_run, Hrec, !lookup_empty.
    cbn. eexists _, _, _. split; [reflexivity|]. split.
    { cbn [AUTH_DO set_AUTH_DO]. rewrite lookup_insert_eq. cbn.
      now rewrite Hrec, Hs. }
    split; [reflexivity|]. now rewrite !elapse_trace.
  - rewrite bind_run. unfold construct.
    rewrite bind_run. unfold modify at 1. cbv beta iota. rewrite bind_run.
    destruct (initializeApiHost (set_access_token None o) w2)
      as [[[[]|error] oa] wb] eqn:Ei;
      destruct (initializeApiHost_frame _ _ _ _ _ Ei) as [Hst Htr];
      cbn [storage set_access_token] in Hst; rewrite Hrec in Hst.
    + rewrite bind_run, checkRegisteredStatus_run. cbv zeta.
      rewrite Hst, !lookup_empty. cbn [unexpired_at truthy andb].
      unfold modify. cbv beta iota.
      unfold getStatus. rewrite bind_run, isRegistered_run.
      cbn [storage set_live set_access_token]. rewrite Hst, !lookup_empty.
      cbn. eexists _, _, _. split; [reflexivity|]. split.
      { cbn [AUTH_DO set_AUTH_DO]. rewrite lookup_insert_eq. cbn.
        now rewrite Hst, Hs. }
      split; [reflexivity|]. now rewrite !elapse_trace.
    + cbn. eexists _, _, _. split; [reflexivity|]. split.
      { cbn [AUTH_DO set_AUTH_DO]. rewrite lookup_insert_eq. cbn.
        now rewrite Hst, Hs. }
      split; [reflexivity|]. cbn. rewrite Htr. now rewrite <- app_assoc.
Qed.

(** X21.  The two signup routes agree: [GET /signup-enabled] answers
    [signupEnabled: true] exactly when the flag is the string [false], and
    [POST /register] answers with status 403 exactly when
    [GET /signup-enabled] answers [signupEnabled: false]. *)
Theorem signup_routes_agree body e w :
  exists b,
    signup_enabled_route e w
      = (Ok (mkHttpResponse 200 [("signupEnabled", JBool b)]), e, w) /\
    (b = true <-> SIGNUP_DISABLED e = "false") /\
    exists resp e' w',
      register_route body e w = (Ok resp, e', w') /\
      (http_status resp = 403%Z <-> b = false).
Proof.
  exists (String.eqb (SIGNUP_DISABLED e) "false").
  split; [reflexivity|]. split; [apply String.eqb_eq|].
  unfold register_route. rewrite bind_run. unfold gets. cbv beta iota.
  destruct (String.eqb (SIGNUP_DISABLED e) "false") eqn:Ef; cbn [negb].
  - unfold try_catch.
    destruct body as [obj|]; cbn [req_json].
    2:{ cbn. eexists _, _, _. split; [reflexivity|]. cbn. split; discriminate. }
    rewrite bind_run. unfold ret at 1. cbv beta iota.
    destruct (negb (truthy (field "linkCode" obj))).
    { cbn. eexists _, _, _. split; [reflexivity|]. cbn. split; discriminate. }
    rewrite bind_run.
    destruct (randomUUID e w) as [[[deviceId|err] ea] wa];
      [|cbn; eexists _, _, _; split; [reflexivity|]; cbn; split; discriminate].
    rewrite bind_run.
    destruct (randomUUID ea wa) as [[[authDoId|err] eb] wb];
      [|cbn; eexists _, _, _; split; [reflexivity|]; cbn; split; discriminate].
    rewrite bind_run.
    destruct (stub_call authDoId _ eb wb) as [[[[did|err]|err] ec] wc];
      cbn; eexists _, _, _; (split; [reflexivity|]); cbn; split; discriminate.
  - cbn. eexists _, _, _. split; [reflexivity|]. cbn. split; reflexivity.
Qed.

(** X22.  The [email] handler rejects a message without attachment with the
    reason "Email must contain at least one attachment", whether or not it
    has a [to] address, and a message with attachments but without [to]
    address with the reason "Email must have a 'to' address"; in both cases
    it reports the rejection, stages nothing and makes no network call. *)
Theorem email_rejection_reasons message e w :
  (attachments message = None \/ attachments message = Some [] ->
   exists w',
     email message e w
       = (Ok (Some "Email must contain at least one attachment"), e, w') /\
     trace w' = trace w ++ [EvConsoleError "Email has no attachments"]) /\
  (forall a atts,
     attachments message = Some (a :: atts) ->
     to message = None \/ to message = Some [] ->
     exists line w',
       email message e w = (Ok (Some "Email must have a 'to' address"), e, w') /\
       trace w' = trace w ++ [EvConsoleError line]).
Proof.
  unfold email. split.
  - intros [Ha|Ha]; rewrite Ha; cbn; eauto.
  - intros a atts Ha [Ht|Ht]; rewrite Ha, Ht; cbn; eauto.
Qed.

Lemma checkRegisteredStatus_trace o w r o' w' :
  checkRegisteredStatus o w = (r, o', w') ->
  trace w' = trace w \/ trace w' = trace w ++ [EvFetch (refresh_request o)].
Proof.
  intros H. refresh_cases H; autorewrite with world; auto.
Qed.

(** X23.  [register] makes at most two network calls, in this order: the
    registration request carrying the link code and the device id, and, only
    after a 200 answer with a non-empty body, at most one refresh request,
    which carries that body as bearer credential. *)
Theorem register_network_calls linkCode deviceId o w r o' w' :
  register linkCode deviceId o w = (r, o', w') ->
  trace w' = trace w ++ [EvFetch (register_request o linkCode deviceId)] \/
  exists resp rest,
    net w = Resp resp :: rest /\ status resp = 200%Z /\ text resp <> EmptyString /\
    trace w' = trace w
               ++ [EvFetch (register_request o linkCode deviceId);
                   EvFetch (mkRequest (auth_host o +:+ "/token/json/2/user/new") "POST"
                              [("authorization", "Bearer " +:+ text resp)] NoBody)].
Proof.
  rewrite register_run. cbv zeta. unfold fetch, register_request.
  rewrite elapse_net.
  destruct (net w) as [|[m|resp] rest] eqn:En.
  { intros H. inversion H; subst. left. now autorewrite with world. }
  { intros H. inversion H; subst. left. now autorewrite with world. }
  destruct (negb (status resp =? 200)%Z) eqn:Es.
  { intros H. inversion H; subst. left. now autorewrite with world. }
  destruct (negb (truthy_str (text resp))) eqn:Et.
  { intros H. inversion H; subst. left. now autorewrite with world. }
  apply negb_false_iff in Es, Et.
  match goal with |- context [checkRegisteredStatus ?a ?b] =>
    destruct (checkRegisteredStatus a b) as [[r1 o2] w2] eqn:E end.
  intros H.
  assert (w' = w2) as -> by (destruct r1 as [[]|]; inversion H; reflexivity).
  clear H.
  assert (trace w2 = trace w ++ [EvFetch (register_request o linkCode deviceId)] \/
          trace w2 = (trace w ++ [EvFetch (register_request o linkCode deviceId)])
                     ++ [EvFetch (mkRequest (auth_host o +:+ "/token/json/2/user/new") "POST"
                                    [("authorization", "Bearer " +:+ text resp)] NoBody)])
    as [Ht|Ht].
  { destruct (checkRegisteredStatus_trace _ _ _ _ _ E) as [Ht|Ht];
      rewrite Ht; autorewrite with world; [now left|right].
    unfold refresh_request. cbn. now rewrite lookup_insert_eq. }
  - left. exact Ht.
  - right. exists resp, rest. split; [reflexivity|]. split; [lia|].
    split; [now apply truthy_str_nonempty|]. rewrite Ht. now rewrite <- app_assoc.
Qed.

(** X24.  The upload step first encodes the header [rM-Meta] from the file
    name.  When that encoding throws -- the file name has a character
    [btoa] does not take -- the step throws the same error before any
    network call.  Otherwise it sends the staged bytes in one POST to the
    document endpoint, with the access credential as bearer, the stored
    content type, or [application/octet-stream] when none is stored, and
    the encoded header.  An answer whose status lies outside 200..299 makes
    the step throw an error that carries the status and the body, after
    reporting it; an answer inside that range makes it return when the body
    is JSON, and throw when it is not, although the document has been
    accepted upstream.  The bucket is not touched. *)
Theorem upload_to_api_outcome payload fileInfo accessToken e w file :
  DOCUMENT_STORAGE e !! wp_fileId payload = Some file ->
  let rmMeta := [("parent", EmptyString); ("file_name", fi_fileName fileInfo)] in
  exists r w',
    upload_to_api payload fileInfo accessToken e w = (r, e, w') /\
    (forall err, btoa_json rmMeta = Throw err ->
       r = Throw err /\ trace w' = trace w /\ net w' = net w) /\
    (forall rmMetaBase64 resp rest,
       btoa_json rmMeta = Ok rmMetaBase64 ->
       net w = Resp resp :: rest ->
       let request :=
         mkRequest "https://eu.tectonic.remarkable.com/doc/v2/files" "POST"
           [("Authorization", "Bearer " +:+ accessToken);
            ("Content-Type",
             or_else (match httpMetadata file with
                      | Some h => contentType h
                      | None => None
                      end) "application/octet-stream");
            ("rM-Meta", rmMetaBase64)]
           (StreamBody (r2_body file)) in
       let line :=
         "reMarkable API error (" +:+ pretty (status resp) +:+ "): " +:+ text resp in
       ((status resp < 200 \/ 299 < status resp)%Z ->
        r = Throw (Error line) /\
        trace w' = trace w ++ [EvFetch request; EvConsoleError line]) /\
       ((200 <= status resp <= 299)%Z ->
        trace w' = trace w ++ [EvFetch request] /\
        match json resp with
        | Some obj => exists t, r = Ok (mkApiResponse t obj)
        | None => exists err, r = Throw (SyntaxError err)
        end)).
Proof.
  intros Hf rmMeta.
  unfold upload_to_api. rewrite bind_run. unfold bucket_get. rewrite bind_run.
  unfold await_tick at 1, gets. cbv beta iota. rewrite Hf.
  rewrite bind_run. unfold host_call at 1. fold rmMeta.
  destruct (btoa_json rmMeta) as [header|err0] eqn:Eb.
  2:{ eexists _, _. split; [reflexivity|]. split.
      - intros err Herr. inversion Herr; subst.
        split; [reflexivity|]. now rewrite elapse_trace, elapse_net.
      - intros h resp rest Hh. discriminate. }
  rewrite bind_run. unfold fetch. rewrite elapse_net.
  destruct (net w) as [|[m|resp0] rest0] eqn:Hn.
  1,2: eexists _, _; (split; [reflexivity|]); split;
       [intros err Herr; discriminate | intros h resp rest _ Hr; discriminate].
  unfold response_ok.
  destruct ((200 <=? status resp0)%Z && (status resp0 <=? 299)%Z) eqn:Eok; cbn [negb].
  - apply andb_true_iff in Eok as [H1 H2].
    rewrite bind_run. unfold response_json.
    destruct (json resp0) as [obj|] eqn:Ej.
    + cbn. eexists _, _. split; [reflexivity|].
      split; [intros err Herr; discriminate|].
      intros h resp rest Hh Hr. inversion Hh; inversion Hr; subst.
      split; [lia|]. intros _. rewrite Ej.
      split; [now autorewrite with world|eauto].
    + cbn. eexists _, _. split; [reflexivity|].
      split; [intros err Herr; discriminate|].
      intros h resp rest Hh Hr. inversion Hh; inversion Hr; subst.
      split; [lia|]. intros _. rewrite Ej.
      split; [now autorewrite with world|eauto].
  - apply andb_false_iff in Eok.
    rewrite bind_run. unfold console_error at 1, throw. cbv beta iota.
    eexists _, _. split; [reflexivity|].
    split; [intros err Herr; discriminate|].
    intros h resp rest Hh Hr. inversion Hh; inversion Hr; subst.
    split; [|lia]. intros _.
    split; [reflexivity|]. cbn. autorewrite with world.
    now rewrite <- app_assoc.
Qed.

(** ** A document the upload step cannot name *)



End Program.

(** * The statements at concrete inputs *)

(** ** Scenarios of the spec *)

(** Scenario A of the spec: registration with link code ABC123 and device
    dev-1 succeeds after three network calls. *)
Example scenario_A_registers :
  rpc jwt_payload_exp (register jwt_payload_exp "ABC123" "dev-1") fresh_do scenario_A
  = (Ok (RegisterResult "dev-1"), registered_do,
     mkWorld 1700000000007 [] [] [] []
       [EvFetch (mkRequest ENDPOINT_DISCOVERY_URL "GET" [] NoBody);
        EvFetch (mkRequest "https://auth.example/token/json/2/device/new" "POST"
                   [("content-type", "application/json")]
                   (JsonBody [("code", "ABC123"); ("deviceDesc", "mobile-android");
                              ("deviceID", "dev-1"); ("secret", EmptyString)]));
        EvFetch (mkRequest "https://auth.example/token/json/2/user/new" "POST"
                   [("authorization", "Bearer RT1")] NoBody)]).
Proof. vm_compute. reflexivity. Qed.

Lemma registered_do_reachable : reachable jwt_payload_exp registered_do.
Proof.
  apply (reach_call jwt_payload_exp fresh_do scenario_A
           (CallRegister "ABC123" "dev-1") (Ok tt) registered_do
           (snd (rpc jwt_payload_exp
                   (run_call jwt_payload_exp (CallRegister "ABC123" "dev-1"))
                   fresh_do scenario_A))).
  - apply reach_fresh.
  - vm_compute. reflexivity.
Defined.

(** Scenario C of the spec: the refresh credential is revoked upstream, every
    attempt of the authentication step gets a 401, the job fails there and
    the document endpoint is never called. *)
Example scenario_C_job_fails_without_upload :
  let w := world_with (repeat (answer 401 "unauthorized") 6) [] [] in
  let e := mkEnv "false" (<["acct-1" := registered_expired]> ∅)
             (DOCUMENT_STORAGE (sample_env "false")) [] in
  exists e' w',
    run jwt_payload_exp sample_btoa_json 5 sample_payload e w
      = (Throw (Error "No valid access token available. Device may not be registered."),
         e', w') /\
    fetches (trace w')
      = repeat (mkRequest "https://auth.example/token/json/2/user/new" "POST"
                  [("authorization", "Bearer RT1")] NoBody) 6.
Proof.
  eexists _, _. split; vm_compute; reflexivity.
Qed.

(** Scenario D of the spec: the job of [sample_payload] with a bucket that
    accepts the delete. *)
Example scenario_D_job_completes :
  let w := world_with [upload_answer] [] [] in
  exists e' w',
    run jwt_payload_exp sample_btoa_json 5 sample_payload (sample_env "false") w
      = (Ok tt, e', w') /\
    settled_status (Ok tt) = Complete /\
    DOCUMENT_STORAGE e' !! "file-1" = None.
Proof.
  eexists _, _. split; [vm_compute; reflexivity|].
  split; [reflexivity|]. vm_compute. reflexivity.
Qed.

(** ** C1 *)

(** A credential just received is returned although it expired long before
    the call. *)
Lemma refreshed_credential_returned_expired :
  let w := world_with [answer 200 expired_token] [] [] in
  exists o' w',
    getAccessToken jwt_payload_exp registered_no_token w
      = (Ok (Some expired_token), o', w') /\
    token_exp jwt_payload_exp expired_token = Some 1000%Z /\
    (1000 <= now_seconds w)%Z.
Proof.
  eexists _, _. split; [vm_compute; reflexivity|].
  split; [reflexivity|]. vm_compute. discriminate.
Qed.

Lemma getAccessToken_unexpired_or_just_refreshed_witness :
  let w := world_with [] [] [] in
  getAccessToken jwt_payload_exp registered_do w
    = (Ok (Some valid_token), registered_do, w) /\
  ((exists exp, (access_token registered_do = Some valid_token \/
                 storage registered_do !! "access_token" = Some valid_token) /\
                token_exp jwt_payload_exp valid_token = Some exp /\
                (now_seconds w < exp)%Z /\ trace w = trace w)
   \/
   (exists resp rest, net w = Resp resp :: rest /\ status resp = 200%Z /\
                      text resp = valid_token /\ valid_token <> EmptyString /\
                      trace w = trace w ++ [EvFetch (refresh_request registered_do)])).
Proof.
  intros w.
  assert (getAccessToken jwt_payload_exp registered_do w
          = (Ok (Some valid_token), registered_do, w)) as H
    by (vm_compute; reflexivity).
  split; [exact H|].
  exact (getAccessToken_unexpired_or_just_refreshed jwt_payload_exp
           registered_do w valid_token registered_do w H).
Defined.

(** ** C2 *)

(** A transport failure of the refresh call makes [getAccessToken()] raise. *)
Lemma getAccessToken_raises_on_transport_failure :
  getAccessToken jwt_payload_exp registered_no_token
    (world_with [NetFail "Network connection lost"] [] [])
  = (Throw (TypeError "Network connection lost"), registered_no_token,
     after_refresh_call).
Proof. vm_compute. reflexivity. Qed.

Lemma getAccessToken_raises_only_on_transport_failure_witness :
  let w := world_with [answer 401 "unauthorized"] [] [] in
  getAccessToken jwt_payload_exp registered_no_token w
    = (Ok None, registered_no_token, after_refresh_call) /\
  (answered w = true -> exists v : option string, Ok None = Ok v).
Proof.
  intros w.
  assert (getAccessToken jwt_payload_exp registered_no_token w
          = (Ok None, registered_no_token, after_refresh_call)) as H
    by (vm_compute; reflexivity).
  split; [exact H|].
  exact (proj1 (getAccessToken_raises_only_on_transport_failure jwt_payload_exp
                  registered_no_token w (Ok None) registered_no_token
                  after_refresh_call H)).
Defined.

(** ** C3 *)

(** With the engine retrying five times and the bucket rejecting six deletes,
    a job that has uploaded its document ends errored. *)
Lemma failed_cleanup_job_not_complete :
  let w := world_with [upload_answer] [] (repeat (Some "R2 unavailable") 6) in
  exists fileInfo e1 w1 e2 w2,
    before_cleanup jwt_payload_exp sample_btoa_json 5 sample_payload
      (sample_env "false") w = (Ok fileInfo, e1, w1) /\
    run jwt_payload_exp sample_btoa_json 5 sample_payload (sample_env "false") w
      = (Throw (Error "R2 unavailable"), e2, w2) /\
    settled_status (Throw (Error "R2 unavailable")) <> Complete /\
    is_Some (DOCUMENT_STORAGE e2 !! "file-1").
Proof.
  eexists _, _, _, _, _.
  split; [vm_compute; reflexivity|].
  split; [vm_compute; reflexivity|].
  split; [discriminate|].
  vm_compute. eauto.
Qed.

Lemma cleanup_failure_fails_the_job_witness :
  let w := world_with [upload_answer] [] (repeat (Some "R2 unavailable") 6) in
  exists m msgs w2,
    run jwt_payload_exp sample_btoa_json 5 sample_payload (sample_env "false") w
      = (Throw (Error m), sample_env "false", w2) /\
    settled_status
      (run jwt_payload_exp sample_btoa_json 5 sample_payload (sample_env "false") w).1.1
      = Errored /\
    length msgs = 6%nat /\
    trace w2 = trace after_upload
               ++ map (delete_report sample_file_info) msgs.
Proof.
  intros w.
  refine (cleanup_failure_fails_the_job jwt_payload_exp sample_btoa_json 5
            sample_payload (sample_env "false") w sample_file_info
            (sample_env "false") after_upload _ _).
  - vm_compute. reflexivity.
  - vm_compute. reflexivity.
Defined.

(** ** C4 *)

(** With signup disabled the status is 403, not 400. *)
Lemma register_route_disabled_403 :
  exists w',
    register_route jwt_payload_exp (Some [("linkCode", "ABC123")])
      (sample_env "true") (world_with [] [] [])
    = (Ok (mkHttpResponse 403 [("error", JString "Signup is currently disabled")]),
       sample_env "true", w') /\
    http_status (mkHttpResponse 403 [("error", JString "Signup is currently disabled")])
      <> 400%Z.
Proof.
  eexists. split; [vm_compute; reflexivity|]. discriminate.
Qed.

Lemma register_route_responses_witness :
  SIGNUP_DISABLED (sample_env "false") = "false" /\
  exists w',
    register_route jwt_payload_exp (Some [("device", "dev-1")])
      (sample_env "false") (world_with [] [] [])
    = (Ok (mkHttpResponse 400 [("error", JString "Link code is required")]),
       sample_env "false", w').
Proof.
  split; [reflexivity|].
  refine (proj1 (proj2 (proj2 (register_route_responses jwt_payload_exp
            (Some [("device", "dev-1")]) (sample_env "false") (world_with [] [] []))
            _)) [("device", "dev-1")] _ _); reflexivity.
Defined.

(** ** C5 *)

Lemma email_with_addressee_raises_witness :
  attachments sample_message
    = Some [mkAttachment (Some "notes.pdf") (Some "application/pdf")
              (file_content sample_file)] /\
  to sample_message
    = Some [mkAddress (Some "acct-1@send-to-remarkable.zegs.me") None] /\
  email jwt_payload_exp sample_message (sample_env "false") (world_with [] [] [])
    = (Throw (ReferenceError "toAddress is not defined"),
       sample_env "false", world_with [] [] []).
Proof.
  split; [reflexivity|]. split; [reflexivity|].
  apply (email_with_addressee_raises jwt_payload_exp sample_message
           (sample_env "false") (world_with [] [] [])
           (mkAttachment (Some "notes.pdf") (Some "application/pdf")
              (file_content sample_file)) []
           (mkAddress (Some "acct-1@send-to-remarkable.zegs.me") None) []);
    reflexivity.
Defined.

(** ** C6 *)

Lemma register_rejected_leaves_refresh_credential_witness :
  let o := mkAuthDO ∅ None "https://sync.example" "https://auth.example" true in
  let w := world_with [answer 400 "invalid code"] [] [] in
  exists error w',
    register jwt_payload_exp "BAD000" "dev-2" o w
      = (Ok (AuthError error), set_storage (insert "device_id" "dev-2") o, w') /\
    storage (set_storage (insert "device_id" "dev-2") o) !! "refresh_token"
      = storage o !! "refresh_token" /\
    (storage o !! "refresh_token" = None ->
     storage (set_storage (insert "device_id" "dev-2") o) !! "refresh_token" = None) /\
    storage (set_storage (insert "device_id" "dev-2") o) !! "device_id"
      = Some "dev-2".
Proof.
  intros o w.
  apply (register_rejected_leaves_refresh_credential jwt_payload_exp
           "BAD000" "dev-2" o w (mkResponse 400 "invalid code" None) []).
  - reflexivity.
  - left. discriminate.
Defined.

(** ** C7 *)

Lemma cached_credential_network_calls_witness :
  let w := world_with [] [] [] in
  ((now_seconds w < 2000000000)%Z ->
   getAccessToken jwt_payload_exp registered_do w
     = (Ok (Some valid_token), registered_do, w)) /\
  ((2000000000 <= now_seconds w)%Z ->
   exists r o' w',
     getAccessToken jwt_payload_exp registered_do w = (r, o', w') /\
     fetches (trace w') = fetches (trace w) ++ [refresh_request registered_do]).
Proof.
  intros w.
  apply (cached_credential_network_calls jwt_payload_exp registered_do w
           valid_token 2000000000).
  - exact registered_do_reachable.
  - reflexivity.
  - reflexivity.
Defined.

(** ** C8 *)

Lemma uploadFile_unregistered_witness :
  let w := world_with [discovery_answer] [] [] in
  exists e1 w1 w',
    stub_call jwt_payload_exp "nobody" isRegistered (sample_env "false") w
      = (Ok false, e1, w1) /\
    uploadFile jwt_payload_exp sample_file "nobody" None (sample_env "false") w
      = (Throw (Error "Device not registered or authentication expired"), e1, w') /\
    fetches (trace w') = fetches (trace w1) /\
    DOCUMENT_STORAGE e1 = DOCUMENT_STORAGE (sample_env "false") /\
    MY_WORKFLOW e1 = MY_WORKFLOW (sample_env "false").
Proof.
  intros w.
  destruct (stub_call jwt_payload_exp "nobody" isRegistered (sample_env "false") w)
    as [[r e1] w1] eqn:H.
  assert (r = Ok false) as ->.
  { apply (f_equal (fun x => x.1.1)) in H. vm_compute in H. congruence. }
  destruct (uploadFile_unregistered jwt_payload_exp sample_file "nobody" None
              (sample_env "false") w e1 w1 H) as (w' & Hu & Hrest).
  exists e1, w1, w'. split; [reflexivity|]. split; [exact Hu|exact Hrest].
Defined.

(** ** C9 *)

Lemma failed_refresh_keeps_refresh_credential_witness :
  let w := world_with [answer 401 "unauthorized"] [] [] in
  let o' := set_access_token None registered_expired in
  checkRegisteredStatus jwt_payload_exp registered_expired w
    = (Ok false, o', after_refresh_call) /\
  Ok false <> Ok true /\
  storage o' = storage registered_expired /\
  storage o' !! "refresh_token" = storage registered_expired !! "refresh_token".
Proof.
  intros w o'.
  assert (checkRegisteredStatus jwt_payload_exp registered_expired w
          = (Ok false, o', after_refresh_call)) as H
    by (vm_compute; reflexivity).
  assert (Ok false <> Ok true) as Hne by discriminate.
  split; [exact H|]. split; [exact Hne|].
  exact (failed_refresh_keeps_refresh_credential jwt_payload_exp
           registered_expired w (Ok false) o' after_refresh_call H Hne).
Defined.

(** * The further properties at concrete inputs *)

Lemma registered_opaque_reachable : reachable jwt_payload_exp registered_opaque.
Proof.
  apply (reach_call jwt_payload_exp fresh_do scenario_opaque
           (CallRegister "ABC123" "dev-1") (Ok tt) registered_opaque
           (snd (rpc jwt_payload_exp
                   (run_call jwt_payload_exp (CallRegister "ABC123" "dev-1"))
                   fresh_do scenario_opaque))).
  - apply reach_fresh.
  - vm_compute. reflexivity.
Defined.


(** X2 *)
Lemma register_transport_failure_keeps_device_id_witness :
  let w := world_with [NetFail "Network connection lost"] [] [] in
  answered w = false /\
  exists m w',
    register jwt_payload_exp "ABC123" "dev-9" unregistered_do w
      = (Throw (TypeError m),
         set_storage (insert "device_id" "dev-9") unregistered_do, w').
Proof.
  intros w.
  assert (answered w = false) as H by reflexivity.
  split; [exact H|].
  destruct (register_transport_failure_keeps_device_id jwt_payload_exp
              "ABC123" "dev-9" unregistered_do w H) as (m & w' & Hr & _).
  exists m, w'. exact Hr.
Defined.

(** X3: the link code is accepted, the first refresh is refused with 401,
    [register] returns an error, and the device is registered all the
    same. *)
Lemma register_accepted_persists_refresh_credential_witness :
  let w := world_with [answer 200 "RT1"; answer 401 "unauthorized"] [] [] in
  let o' := mkAuthDO (<["refresh_token" := "RT1"]> (<["device_id" := "dev-9"]> ∅))
              None "https://sync.example" "https://auth.example" true in
  let w' := (register jwt_payload_exp "ABC123" "dev-9" unregistered_do w).2 in
  register jwt_payload_exp "ABC123" "dev-9" unregistered_do w
    = (Ok (AuthError "Failed to register (not registered after token refresh)"),
       o', w') /\
  storage o' !! "refresh_token" = Some "RT1" /\
  storage o' !! "device_id" = Some "dev-9" /\
  forall w2, exists w3, isRegistered o' w2 = (Ok true, o', w3).
Proof.
  intros w o' w'.
  assert (register jwt_payload_exp "ABC123" "dev-9" unregistered_do w
          = (Ok (AuthError "Failed to register (not registered after token refresh)"),
             o', w')) as H by (vm_compute; reflexivity).
  split; [exact H|].
  refine (register_accepted_persists_refresh_credential jwt_payload_exp
            "ABC123" "dev-9" unregistered_do w (mkResponse 200 "RT1" None)
            [answer 401 "unauthorized"] _ o' w' _ _ _ _ H);
    first [reflexivity | discriminate].
Defined.

(** X4 *)
Lemma register_success_state_witness :
  let w := world_with [answer 200 "RT1"; answer 200 valid_token] [] [] in
  let w' := (register jwt_payload_exp "ABC123" "dev-1" unregistered_do w).2 in
  register jwt_payload_exp "ABC123" "dev-1" unregistered_do w
    = (Ok (RegisterResult "dev-1"), registered_do, w') /\
  storage registered_do !! "device_id" = Some "dev-1" /\
  has_refresh_credential registered_do.
Proof.
  intros w w'.
  assert (register jwt_payload_exp "ABC123" "dev-1" unregistered_do w
          = (Ok (RegisterResult "dev-1"), registered_do, w')) as H
    by (vm_compute; reflexivity).
  split; [exact H|].
  destruct (register_success_state jwt_payload_exp "ABC123" "dev-1"
              unregistered_do w "dev-1" registered_do w' H) as (_ & Hd & Hr & _).
  split; [exact Hd|exact Hr].
Defined.

(** X5 *)
Lemma checkRegisteredStatus_result_is_cache_witness :
  let w := world_with [answer 200 valid_token] [] [] in
  let w' := (checkRegisteredStatus jwt_payload_exp registered_no_token w).2 in
  checkRegisteredStatus jwt_payload_exp registered_no_token w
    = (Ok true, registered_do, w') /\
  (true = true <-> truthy (access_token registered_do) = true).
Proof.
  intros w w'.
  assert (checkRegisteredStatus jwt_payload_exp registered_no_token w
          = (Ok true, registered_do, w')) as H by (vm_compute; reflexivity).
  split; [exact H|].
  exact (proj2 (proj2 (checkRegisteredStatus_result_is_cache jwt_payload_exp
                         registered_no_token w true registered_do w' H))).
Defined.

(** X6 *)
Lemma getAccessToken_again_before_expiry_witness :
  let w := world_with [answer 200 valid_token] [] [] in
  let w' := (getAccessToken jwt_payload_exp registered_no_token w).2 in
  let w2 := world_with [] [] [] in
  getAccessToken jwt_payload_exp registered_no_token w
    = (Ok (Some valid_token), registered_do, w') /\
  token_exp jwt_payload_exp valid_token = Some 2000000000%Z /\
  (now_seconds w2 < 2000000000)%Z /\
  getAccessToken jwt_payload_exp registered_do w2
    = (Ok (Some valid_token), registered_do, w2).
Proof.
  intros w w' w2.
  assert (getAccessToken jwt_payload_exp registered_no_token w
          = (Ok (Some valid_token), registered_do, w')) as H
    by (vm_compute; reflexivity).
  assert (token_exp jwt_payload_exp valid_token = Some 2000000000%Z) as HE
    by reflexivity.
  assert (now_seconds w2 < 2000000000)%Z as Hlt by (vm_compute; reflexivity).
  split; [exact H|]. split; [exact HE|]. split; [exact Hlt|].
  exact (getAccessToken_again_before_expiry jwt_payload_exp registered_no_token w
           valid_token registered_do w' 2000000000 w2 H HE Hlt).
Defined.

(** X7 *)
Lemma getAccessToken_keeps_registration_witness :
  let w := world_with [answer 401 "unauthorized"] [] [] in
  let o' := set_access_token None registered_expired in
  getAccessToken jwt_payload_exp registered_expired w
    = (Ok None, o', after_refresh_call) /\
  storage o' !! "device_id" = storage registered_expired !! "device_id" /\
  storage o' !! "refresh_token" = storage registered_expired !! "refresh_token".
Proof.
  intros w o'.
  assert (getAccessToken jwt_payload_exp registered_expired w
          = (Ok None, o', after_refresh_call)) as H by (vm_compute; reflexivity).
  split; [exact H|].
  destruct (getAccessToken_keeps_registration jwt_payload_exp registered_expired w
              (Ok None) o' after_refresh_call H) as (Hd & Hr & _).
  split; [exact Hd|exact Hr].
Defined.

(** X8 *)
Lemma undecodable_credential_refreshed_each_call_witness :
  let w := world_with [answer 200 valid_token] [] [] in
  access_token registered_opaque = Some "opaque" /\
  token_exp jwt_payload_exp "opaque" = None /\
  exists r o' w',
    getAccessToken jwt_payload_exp registered_opaque w = (r, o', w') /\
    fetches (trace w') = fetches (trace w) ++ [refresh_request registered_opaque].
Proof.
  intros w.
  split; [reflexivity|]. split; [reflexivity|].
  apply (undecodable_credential_refreshed_each_call jwt_payload_exp
           registered_opaque w "opaque").
  - exact registered_opaque_reachable.
  - reflexivity.
  - reflexivity.
Defined.

(** X9 *)
Lemma getStatus_report_witness :
  let w := world_with [] [] [] in
  let w' := (getStatus jwt_payload_exp registered_do w).2 in
  getStatus jwt_payload_exp registered_do w
    = (Ok (mkAuthStatus true (Some "dev-1") (Some true)), registered_do, w') /\
  truthy (storage registered_do !! "device_id")
    && truthy (storage registered_do !! "refresh_token") = true /\
  access_token_valid (mkAuthStatus true (Some "dev-1") (Some true))
    = Some (truthy (access_token registered_do)).
Proof.
  intros w w'.
  assert (getStatus jwt_payload_exp registered_do w
          = (Ok (mkAuthStatus true (Some "dev-1") (Some true)), registered_do, w'))
    as H by (vm_compute; reflexivity).
  assert (truthy (storage registered_do !! "device_id")
          && truthy (storage registered_do !! "refresh_token") = true) as Hr
    by reflexivity.
  split; [exact H|]. split; [exact Hr|].
  exact (proj2 (proj2 (proj2 (getStatus_report jwt_payload_exp registered_do w _
                                 registered_do w' H) Hr _ eq_refl))).
Defined.

(** X10 *)
Lemma stub_call_fails_when_discovery_fails_witness :
  let w := world_with [answer 503 "unavailable"] [] [] in
  let o := set_live false registered_do in
  live o = false /\
  exists e o1 w',
    rpc jwt_payload_exp (getAccessToken jwt_payload_exp) o w = (Throw e, o1, w') /\
    storage o1 = storage o /\ live o1 = false /\
    trace w' = trace w ++ [EvFetch discovery_request].
Proof.
  intros w o. split; [reflexivity|].
  apply (stub_call_fails_when_discovery_fails jwt_payload_exp
           (getAccessToken jwt_payload_exp) o w).
  - reflexivity.
  - intros resp rest [= <- <-]. discriminate.
Defined.

(** X11 *)
Lemma evicted_instance_recovers_credential_witness :
  let w := world_with [discovery_answer] [] [] in
  let o := set_live false (set_access_token None registered_do) in
  exists o' w',
    rpc jwt_payload_exp (getAccessToken jwt_payload_exp) o w
      = (Ok (Some valid_token), o', w') /\
    live o' = true /\ access_token o' = Some valid_token /\
    storage o' = storage o /\
    trace w' = trace w ++ [EvFetch discovery_request].
Proof.
  intros w o.
  refine (evicted_instance_recovers_credential jwt_payload_exp o w
            (mkResponse 200 EmptyString
               (Some [("notifications", "sync.example"); ("webapp", "auth.example");
                      ("mqttbroker", "mq.example")]))
            [] _ "auth.example" "sync.example" valid_token 2000000000
            _ _ _ _ _ _ _ _ _ _ _);
    first [reflexivity | discriminate | (vm_compute; reflexivity)].
Defined.

(** X12 *)
Lemma reachable_cache_is_persisted_witness :
  storage registered_do !! "access_token" = Some valid_token /\
  has_refresh_credential registered_do.
Proof.
  destruct (reachable_cache_is_persisted jwt_payload_exp registered_do
              registered_do_reachable) as (H1 & H2).
  pose proof (H1 valid_token eq_refl) as Hp.
  split; [exact Hp|exact (H2 valid_token Hp)].
Defined.

(** X13 *)
Lemma registered_until_destroyed_witness :
  let w := world_with [answer 401 "unauthorized"] [] [] in
  CallGetStatus <> CallDestroy /\
  has_refresh_credential registered_expired /\
  has_refresh_credential
    (rpc jwt_payload_exp (run_call jwt_payload_exp CallGetStatus)
       registered_expired w).1.2.
Proof.
  intros w.
  assert (CallGetStatus <> CallDestroy) as Hc by discriminate.
  assert (has_refresh_credential registered_expired) as Hr by reflexivity.
  split; [exact Hc|]. split; [exact Hr|].
  destruct (rpc jwt_payload_exp (run_call jwt_payload_exp CallGetStatus)
              registered_expired w) as [[r o'] w'] eqn:H.
  exact (registered_until_destroyed jwt_payload_exp CallGetStatus
           registered_expired w r o' w' Hc Hr H).
Defined.

(** X14 *)
Lemma getAccessToken_network_calls_witness :
  let w := world_with [answer 401 "unauthorized"] [] [] in
  getAccessToken jwt_payload_exp registered_no_token w
    = (Ok None, registered_no_token, after_refresh_call) /\
  (trace after_refresh_call = trace w \/
   trace after_refresh_call
     = trace w ++ [EvFetch (refresh_request registered_no_token)]).
Proof.
  intros w.
  assert (getAccessToken jwt_payload_exp registered_no_token w
          = (Ok None, registered_no_token, after_refresh_call)) as H
    by (vm_compute; reflexivity).
  split; [exact H|].
  exact (getAccessToken_network_calls jwt_payload_exp registered_no_token w
           (Ok None) registered_no_token after_refresh_call H).
Defined.

(** X15 *)
Lemma uploadFile_stages_and_submits_witness :
  let w := world_with [] ["doc-1"; "job-1"] [] in
  let w1 := mkWorld 1700000000007 [] [] ["doc-1"; "job-1"] [] [] in
  stub_call jwt_payload_exp "acct-1" isRegistered (sample_env "false") w
    = (Ok true, sample_env "false", w1) /\
  uuids w1 = ["doc-1"; "job-1"] /\
  exists e2 w',
    uploadFile jwt_payload_exp sample_file "acct-1" None (sample_env "false") w
      = (Ok (mkUploadResult true "doc-1" "notes.pdf" "job-1" Queued None None),
         e2, w') /\
    MY_WORKFLOW e2
      = [mkWorkflowInstance "job-1"
           (mkWorkflowParams None "doc-1" "notes.pdf" "acct-1")].
Proof.
  intros w w1.
  assert (stub_call jwt_payload_exp "acct-1" isRegistered (sample_env "false") w
          = (Ok true, sample_env "false", w1)) as H by (vm_compute; reflexivity).
  assert (uuids w1 = ["doc-1"; "job-1"]) as Hu by reflexivity.
  split; [exact H|]. split; [exact Hu|].
  destruct (uploadFile_stages_and_submits jwt_payload_exp sample_file "acct-1" None
              (sample_env "false") w (sample_env "false") w1 "doc-1" "job-1" [] H Hu)
    as (w' & Hr & _ & Hw & _).
  eexists _, w'. split; [exact Hr|exact Hw].
Defined.

(** X16 *)
Lemma run_deletes_only_on_completion_witness :
  let w := world_with [upload_answer] [] [] in
  let e' := set_DOCUMENT_STORAGE (delete "file-1") (sample_env "false") in
  let w' := (run jwt_payload_exp sample_btoa_json 5 sample_payload
               (sample_env "false") w).2 in
  run jwt_payload_exp sample_btoa_json 5 sample_payload (sample_env "false") w
    = (Ok tt, e', w') /\
  DOCUMENT_STORAGE e'
    = delete (wp_fileId sample_payload) (DOCUMENT_STORAGE (sample_env "false")).
Proof.
  intros w e' w'.
  assert (run jwt_payload_exp sample_btoa_json 5 sample_payload (sample_env "false") w
          = (Ok tt, e', w')) as H by (vm_compute; reflexivity).
  split; [exact H|].
  exact (proj1 (proj2 (proj2 (run_deletes_only_on_completion jwt_payload_exp
                                sample_btoa_json 5 sample_payload (sample_env "false")
                                w (Ok tt) e' w' H))) eq_refl).
Defined.

(** X17 *)
Lemma run_without_blob_fails_first_witness :
  let e := mkEnv "false" ∅ ∅ [] in
  let w := world_with [] [] [] in
  DOCUMENT_STORAGE e !! wp_fileId sample_payload = None /\
  exists w',
    run jwt_payload_exp sample_btoa_json 5 sample_payload e w
      = (Throw (Error "File with ID file-1 not found"), e, w') /\
    trace w' = trace w.
Proof.
  intros e w.
  assert (DOCUMENT_STORAGE e !! wp_fileId sample_payload = None) as H by reflexivity.
  split; [exact H|].
  exact (run_without_blob_fails_first jwt_payload_exp sample_btoa_json 5
           sample_payload e w H).
Defined.

(** X18 *)
Lemma cleanup_not_before_24_hours_witness :
  let w := world_with [upload_answer] [] (repeat (Some "R2 unavailable") 6) in
  before_cleanup jwt_payload_exp sample_btoa_json 5 sample_payload
    (sample_env "false") w = (Ok sample_file_info, sample_env "false", after_upload) /\
  (clock_ms w + 86400000 <= clock_ms after_upload)%Z.
Proof.
  intros w.
  assert (before_cleanup jwt_payload_exp sample_btoa_json 5 sample_payload
            (sample_env "false") w
          = (Ok sample_file_info, sample_env "false", after_upload)) as H
    by (vm_compute; reflexivity).
  split; [exact H|].
  exact (cleanup_not_before_24_hours jwt_payload_exp sample_btoa_json 5
           sample_payload (sample_env "false") w sample_file_info
           (sample_env "false") after_upload H).
Defined.

(** X19 *)
Lemma upload_route_responses_witness :
  let w := world_with [] [] [] in
  truthy (Some EmptyString) = false /\
  exists w',
    upload_route jwt_payload_exp (Some (Some sample_file, Some EmptyString))
      (sample_env "false") w
    = (Ok (mkHttpResponse 400 [("error", JString "authId is required")]),
       sample_env "false", w').
Proof.
  intros w. split; [reflexivity|].
  exact (proj1 (proj2 (proj2 (upload_route_responses jwt_payload_exp
                                (Some (Some sample_file, Some EmptyString))
                                (sample_env "false") w)))
           sample_file (Some EmptyString) eq_refl eq_refl).
Defined.

(** X20 *)
Lemma delete_then_status_unregistered_witness :
  let w := world_with [] [] [] in
  let resp := mkHttpResponse 200
                [("success", JBool true);
                 ("message", JString "Authentication destroyed successfully")] in
  let e1 := set_AUTH_DO (insert "acct-1" unregistered_do) (sample_env "false") in
  let w1 := (delete_route jwt_payload_exp "acct-1" (sample_env "false") w).2 in
  let evicted := set_AUTH_DO (insert "acct-1" (set_live false unregistered_do))
                   (sample_env "false") in
  let w2 := world_with [answer 503 "down"] [] [] in
  let line := "Failed to fetch discovery URL (response code): 503" in
  delete_route jwt_payload_exp "acct-1" (sample_env "false") w = (Ok resp, e1, w1) /\
  http_status resp = 200%Z /\
  (exists e3 w3,
     status_route jwt_payload_exp "acct-1" e1 w2
       = (Ok (mkHttpResponse 200 [("registered", JBool false)]), e3, w3) /\
     trace w3 = trace w2) /\
  (exists e3 w3,
     status_route jwt_payload_exp "acct-1" evicted w2
       = (Ok (mkHttpResponse 500 [("error", JString "Failed to check status");
                                  ("details", JString line)]), e3, w3) /\
     trace w3 = trace w2 ++ [EvFetch discovery_request;
                             EvConsoleError ("Status check error: " +:+ line)]).
Proof.
  intros w resp e1 w1 evicted w2 line.
  assert (delete_route jwt_payload_exp "acct-1" (sample_env "false") w
          = (Ok resp, e1, w1)) as H by (vm_compute; reflexivity).
  assert (http_status resp = 200%Z) as Hs by reflexivity.
  split; [exact H|]. split; [exact Hs|].
  destruct (delete_then_status_unregistered jwt_payload_exp "acct-1"
              (sample_env "false") w resp e1 w1 H Hs) as [_ Hlater].
  split.
  - destruct (Hlater e1 w2 eq_refl) as (resp2 & e3 & w3 & Hr & _ & Hc).
    vm_compute in Hc. destruct Hc as [-> Ht].
    exists e3, w3. split; [exact Hr|exact Ht].
  - assert (storage <$> AUTH_DO evicted !! "acct-1"
            = storage <$> AUTH_DO e1 !! "acct-1") as Hrec by (vm_compute; reflexivity).
    destruct (Hlater evicted w2 Hrec) as (resp2 & e3 & w3 & Hr & _ & Hc).
    vm_compute in Hc. destruct Hc as [-> Ht].
    exists e3, w3. split; [exact Hr|exact Ht].
Defined.

(** X22 *)
Lemma email_rejection_reasons_witness :
  let message := mkEmail (mkAddress (Some "reader@example.org") None)
                   None (Some "notes") (Some []) in
  let w := world_with [] [] [] in
  attachments message = Some [] /\
  exists w',
    email jwt_payload_exp message (sample_env "false") w
      = (Ok (Some "Email must contain at least one attachment"),
         sample_env "false", w') /\
    trace w' = trace w ++ [EvConsoleError "Email has no attachments"].
Proof.
  intros message w. split; [reflexivity|].
  exact (proj1 (email_rejection_reasons jwt_payload_exp message
                  (sample_env "false") w) (or_intror eq_refl)).
Defined.

(** X23 *)
Lemma register_network_calls_witness :
  let w := world_with [answer 200 "RT1"; answer 200 valid_token] [] [] in
  let w' := (register jwt_payload_exp "ABC123" "dev-1" unregistered_do w).2 in
  register jwt_payload_exp "ABC123" "dev-1" unregistered_do w
    = (Ok (RegisterResult "dev-1"), registered_do, w') /\
  length (trace w') = 2%nat.
Proof.
  intros w w'.
  assert (register jwt_payload_exp "ABC123" "dev-1" unregistered_do w
          = (Ok (RegisterResult "dev-1"), registered_do, w')) as H
    by (vm_compute; reflexivity).
  split; [exact H|].
  destruct (register_network_calls jwt_payload_exp "ABC123" "dev-1"
              unregistered_do w _ registered_do w' H)
    as [Ht|(resp & rest & _ & _ & _ & Ht)].
  - vm_compute. reflexivity.
  - rewrite Ht. reflexivity.
Defined.

(** X24 *)
Lemma upload_to_api_outcome_witness :
  let w := world_with [answer 500 "boom"] [] [] in
  let file := mkR2Object (file_content sample_file) 1699999999000
                (Some (mkHttpMetadata (Some "application/pdf") None)) None in
  DOCUMENT_STORAGE (sample_env "false") !! wp_fileId sample_payload = Some file /\
  sample_btoa_json [("parent", EmptyString); ("file_name", "notes.pdf")]
    = Ok "eyJwYXJlbnQiOiIiLCJmaWxlX25hbWUiOiJub3Rlcy5wZGYifQ==" /\
  net w = [answer 500 "boom"] /\
  (exists w',
     upload_to_api sample_btoa_json sample_payload sample_file_info valid_token
       (sample_env "false") w
     = (Throw (Error "reMarkable API error (500): boom"), sample_env "false", w')) /\
  sample_btoa_json [("parent", EmptyString); ("file_name", fi_fileName dash_file_info)]
    = Throw (DOMException "InvalidCharacterError" "Invalid character") /\
  exists w',
    upload_to_api sample_btoa_json sample_payload dash_file_info valid_token
      (sample_env "false") w
    = (Throw (DOMException "InvalidCharacterError" "Invalid character"),
       sample_env "false", w') /\
    trace w' = trace w /\ net w' = net w.
Proof.
  intros w file.
  assert (DOCUMENT_STORAGE (sample_env "false") !! wp_fileId sample_payload
          = Some file) as Hf by reflexivity.
  assert (sample_btoa_json [("parent", EmptyString); ("file_name", "notes.pdf")]
          = Ok "eyJwYXJlbnQiOiIiLCJmaWxlX25hbWUiOiJub3Rlcy5wZGYifQ==") as Hb
    by (vm_compute; reflexivity).
  assert (net w = [answer 500 "boom"]) as Hn by reflexivity.
  assert (sample_btoa_json
            [("parent", EmptyString); ("file_name", fi_fileName dash_file_info)]
          = Throw (DOMException "InvalidCharacterError" "Invalid character")) as Hd
    by (vm_compute; reflexivity).
  split; [exact Hf|]. split; [exact Hb|]. split; [exact Hn|]. split.
  - destruct (upload_to_api_outcome sample_btoa_json sample_payload sample_file_info
                valid_token (sample_env "false") w file Hf)
      as (r & w' & Hr & _ & Hok).
    destruct (Hok _ (mkResponse 500 "boom" None) [] Hb Hn) as [Hbad _].
    destruct Hbad as [-> _]; [right; reflexivity|].
    exists w'. exact Hr.
  - split; [exact Hd|].
    destruct (upload_to_api_outcome sample_btoa_json sample_payload dash_file_info
                valid_token (sample_env "false") w file Hf)
      as (r & w' & Hr & Hthrow & _).
    destruct (Hthrow _ Hd) as (-> & Ht & Hnet).
    exists w'. split; [exact Hr|]. split; [exact Ht|exact Hnet].
Defined.

